(** * cloudflare-speed: statistics, timed requests and measurement phases

    A shallow embedding of [internal/math] (Average, Median, Jitter,
    Quartile) and of [cmd/cloudflare-speed/main.go] (request,
    measureLatency, measureDownload, measureUpload, fetchCfCdnCgiTrace).

    Go's [float64] is IEEE 754 binary64, which is what Rocq's primitive
    [float] is, so samples are primitive floats and the examples of the
    specification are evaluated bit for bit.  Go's [int] (64 bits on the
    platforms the program targets) is [Z] with the wrap-around written
    out, and Go's [string] is [string] (a sequence of bytes). *)

From Stdlib Require Import ZArith Lia List Bool Sorting.Permutation Sorting.Sorted.
From Stdlib Require Import Floats Strings.Ascii.
From stdpp Require Import base option list strings pretty gmap.

Local Open Scope Z_scope.

(** ** Machine integers and float64 conversions *)

Module Int64.

Definition min_int : Z := - 2 ^ 63.
Definition max_int : Z := 2 ^ 63 - 1.

(** Two's-complement wrap-around of Go's signed 64-bit arithmetic. *)
Definition wrap (z : Z) : Z := (z + 2 ^ 63) mod 2 ^ 64 - 2 ^ 63.

Definition in_range (z : Z) : bool := (min_int <=? z) && (z <=? max_int).

(** [a * b] on [int]. *)
Definition mul (a b : Z) : Z := wrap (a * b).

End Int64.

Module Float64.

Definition is_nan (x : float) : bool := negb (x =? x)%float.

(** [float64(i)] for an [int]: the nearest binary64.  The magnitude goes
    through a 63-bit unsigned integer, which holds every [int] but the
    smallest, [-2^63], itself a power of two. *)
Definition of_int (z : Z) : float :=
  if z =? - 2 ^ 63 then (-0x1p63)%float
  else if z <? 0 then (- of_uint63 (Uint63.of_Z (- z)))%float
  else of_uint63 (Uint63.of_Z z).

(** The value of a finite float with the fraction dropped, towards zero. *)
Definition trunc (x : float) : option Z :=
  match Prim2SF x with
  | S754_zero _ => Some 0
  | S754_finite s m e =>
      let mag := Z.shiftl (Z.pos m) e in
      Some (if s then - mag else mag)
  | S754_infinity _ | S754_nan => None
  end.

(** [int(x)] for a [float64]: the fraction is discarded.  When the value
    does not fit (NaN, infinities, magnitude of 2^63 or more) Go leaves the
    result to the implementation; on amd64 the conversion instruction
    yields the smallest int64, which is what is modelled here.  What is
    proved below about the value converted is proved for values that
    fit. *)
Definition to_int (x : float) : Z :=
  match trunc x with
  | Some z => if Int64.in_range z then z else Int64.min_int
  | None => Int64.min_int
  end.

End Float64.

(** ** Run-time panics

    A Go function either returns or panics; the panics this program can
    raise are an index out of range and [strings.Repeat] with a negative
    count. *)

Inductive panic : Type :=
  | IndexOutOfRange (i n : Z)
  | NegativeRepeatCount.

Inductive result (A : Type) : Type :=
  | Ok (a : A)
  | Panic (p : panic).
Arguments Ok {A} a.
Arguments Panic {A} p.

#[global] Instance result_ret : MRet result := fun _ a => Ok a.
#[global] Instance result_bind : MBind result := fun _ _ f m =>
  match m with
  | Ok a => f a
  | Panic p => Panic p
  end.

(** A computation over a state [S]: it returns or panics, and leaves a
    state either way. *)
Definition St (S A : Type) : Type := S -> result A * S.

#[global] Instance St_ret {S} : MRet (St S) := fun _ a s => (Ok a, s).
#[global] Instance St_bind {S} : MBind (St S) := fun _ _ f m s =>
  match m s with
  | (Ok a, s') => f a s'
  | (Panic p, s') => (Panic p, s')
  end.

Definition lift {S A} (r : result A) : St S A := fun s => (r, s).

Definition len {A} (s : list A) : Z := Z.of_nat (length s).

(** [s[i]]: the element, or the index-out-of-range panic. *)
Definition index {A} (s : list A) (i : Z) : result A :=
  if (0 <=? i) && (i <? len s) then
    match s !! Z.to_nat i with
    | Some v => Ok v
    | None => Panic (IndexOutOfRange i (len s))
    end
  else Panic (IndexOutOfRange i (len s)).

(** ** sort.Float64s

    The order of [sort.Float64Slice]: [x < y], with NaN below every other
    value. *)
Definition less (x y : float) : bool :=
  (x <? y)%float || (Float64.is_nan x && negb (Float64.is_nan y)).

Fixpoint insert_sorted (x : float) (l : list float) : list float :=
  match l with
  | [] => [x]
  | h :: t => if less x h then x :: h :: t else h :: insert_sorted x t
  end.

(** [sort.Float64s] puts a slice in increasing order.  The library sort is
    modelled by insertion into an ordered list: every correct sort returns
    the same sequence up to the order of values [less] cannot tell apart
    (the two zeros, and NaNs among themselves). *)
Definition sort_Float64s (l : list float) : list float :=
  foldr insert_sorted [] l.

(** [sort.Float64sAreSorted]: no element is [less] than its predecessor. *)
Fixpoint Float64sAreSorted (l : list float) : bool :=
  match l with
  | a :: ((b :: _) as t) => negb (less b a) && Float64sAreSorted t
  | _ => true
  end.

(** ** internal/math *)

(** [for _, v := range values { sum += v }], starting from [sum]. *)
Definition sum_from (sum : float) (values : list float) : float :=
  fold_left (fun s v => (s + v)%float) values sum.

Definition Average (values : list float) : float :=
  if len values =? 0 then 0%float
  else
    let sum := sum_from 0%float values in
    (sum / Float64.of_int (len values))%float.

Definition Median (values : list float) : result float :=
  if len values =? 0 then Ok 0%float
  else
    let sorted := sort_Float64s values in
    let mid := Z.quot (len sorted) 2 in
    if Z.rem (len sorted) 2 =? 0 then
      a ← index sorted (mid - 1);
      b ← index sorted mid;
      Ok ((a + b) / 2)%float
    else index sorted mid.

Definition Jitter (values : list float) : float :=
  if len values <=? 1 then 0%float
  else
    let avg := Average values in
    let sum :=
      fold_left (fun s v => (s + (v - avg) * (v - avg))%float) values 0%float in
    (sum / Float64.of_int (len values - 1))%float.

Definition Quartile (values : list float) (q : float) : result float :=
  if len values =? 0 then Ok 0%float
  else
    let sorted := sort_Float64s values in
    let pos := Float64.to_int (Float64.of_int (len sorted) * q)%float in
    let pos := if pos >=? len sorted then len sorted - 1 else pos in
    index sorted pos.

(** ** internal/math on slices in memory

    The same [Median] and [Quartile], with the slices where Go has them:
    a slice is a window on a backing array, [make] allocates a new array,
    and [copy] and [sort.Float64s] write through the slice they are given. *)

Module Mem.

Record slice : Type := {
  Data : nat;
  Off : nat;
  Len : nat
}.

(** The store: every allocated array, by address. *)
Abbreviation store := (gmap nat (list float)).

(** The elements a slice shows. *)
Definition elements (h : store) (s : slice) : list float :=
  take (Len s) (drop (Off s) (default [] (h !! Data s))).

(** Writing [vs] over the first elements of a slice. *)
Definition write (s : slice) (vs : list float) (h : store) : store :=
  match h !! Data s with
  | Some arr =>
      <[Data s := take (Off s) arr ++ vs ++ drop (Off s + length vs) arr]> h
  | None => h
  end.

(** [make([]float64, n)]: a new array of zeros at an unused address. *)
Definition make (n : Z) : St store slice := fun h =>
  let l := fresh (dom h) in
  (Ok {| Data := l; Off := 0; Len := Z.to_nat n |},
   <[l := replicate (Z.to_nat n) 0%float]> h).

(** [copy(dst, src)]: as many elements as both slices have. *)
Definition copy (dst src : slice) : St store Z := fun h =>
  let n := Nat.min (Len dst) (Len src) in
  (Ok (Z.of_nat n), write dst (take n (elements h src)) h).

(** [sort.Float64s(x)] sorts in place. *)
Definition Float64s (x : slice) : St store unit := fun h =>
  (Ok tt, write x (sort_Float64s (elements h x)) h).

(** [s[i]]. *)
Definition at_index (s : slice) (i : Z) : St store float := fun h =>
  (index (elements h s) i, h).

Definition Median (values : slice) : St store float :=
  if Z.of_nat (Len values) =? 0 then mret 0%float
  else
    sorted ← make (Z.of_nat (Len values));
    _ ← copy sorted values;
    _ ← Float64s sorted;
    let mid := Z.quot (Z.of_nat (Len sorted)) 2 in
    if Z.rem (Z.of_nat (Len sorted)) 2 =? 0 then
      a ← at_index sorted (mid - 1);
      b ← at_index sorted mid;
      mret ((a + b) / 2)%float
    else at_index sorted mid.

Definition Quartile (values : slice) (q : float) : St store float :=
  if Z.of_nat (Len values) =? 0 then mret 0%float
  else
    sorted ← make (Z.of_nat (Len values));
    _ ← copy sorted values;
    _ ← Float64s sorted;
    let pos :=
      Float64.to_int (Float64.of_int (Z.of_nat (Len sorted)) * q)%float in
    let pos :=
      if pos >=? Z.of_nat (Len sorted) then Z.of_nat (Len sorted) - 1 else pos in
    at_index sorted pos.

(** The three statements both functions start with: the sorted copy. *)
Definition sorted_copy (values : slice) : St store slice :=
  sorted ← make (Z.of_nat (Len values));
  _ ← copy sorted values;
  _ ← Float64s sorted;
  mret sorted.

(** A slice lies within an allocated array. *)
Definition valid (h : store) (s : slice) : Prop :=
  exists arr, h !! Data s = Some arr /\ (Off s + Len s <= length arr)%nat.

End Mem.

(** ** Package strings, on byte strings *)

Module strings.

(** [strings.Split(s, sep)] for a one-byte separator, the only kind the
    program uses: the pieces between the separators, one more than there
    are separators (so the empty string gives one empty piece). *)
Fixpoint Split (s : string) (sep : ascii) : list string :=
  match s with
  | EmptyString => [EmptyString]
  | String c s' =>
      if decide (c = sep) then EmptyString :: Split s' sep
      else
        match Split s' sep with
        | piece :: pieces => String c piece :: pieces
        | [] => [String c EmptyString]
        end
  end.

Definition rune (bytes : list ascii) : string :=
  foldr String EmptyString bytes.

(** The white space of [unicode.IsSpace], in UTF-8: tab, line feed, vertical
    tab, form feed, carriage return, space, U+0085, U+00A0, U+1680, U+2000 to
    U+200A, U+2028, U+2029, U+202F, U+205F and U+3000. *)
Definition white_space : list string :=
  (rune <$> [ ["009"]; ["010"]; ["011"]; ["012"]; ["013"]; ["032"];
              ["194"; "133"]; ["194"; "160"]; ["225"; "154"; "128"] ]%char)
  ++ ((fun c => rune ["226"; "128"; ascii_of_nat c]%char) <$> seq 128 11)
  ++ (rune <$> [ ["226"; "128"; "168"]; ["226"; "128"; "169"];
                 ["226"; "128"; "175"]; ["226"; "129"; "159"];
                 ["227"; "128"; "128"] ]%char).

(** [s[n:]], for [n] within the string. *)
Fixpoint from (n : nat) (s : string) : string :=
  match n, s with
  | S n', String _ s' => from n' s'
  | _, _ => s
  end.

(** The string after its first rune, when that rune is one of [spaces]. *)
Definition after_space (spaces : list string) (s : string) : option string :=
  (fun w => from (String.length w) s)
    <$> head (filter (fun w => String.prefix w s = true) spaces).

(** Dropping leading runes of [spaces], at most [fuel] of them. *)
Fixpoint trim_left (spaces : list string) (fuel : nat) (s : string) : string :=
  match fuel with
  | O => s
  | S fuel' =>
      match after_space spaces s with
      | Some rest => trim_left spaces fuel' rest
      | None => s
      end
  end.

Definition TrimLeftSpace (s : string) : string :=
  trim_left white_space (String.length s) s.

(** The trailing runes are the leading runes of the reversed string. *)
Definition TrimRightSpace (s : string) : string :=
  String.rev
    (trim_left (String.rev <$> white_space) (String.length s) (String.rev s)).

(** [strings.TrimSpace]: the string without its leading and trailing white
    space. *)
Definition TrimSpace (s : string) : string := TrimRightSpace (TrimLeftSpace s).

Definition HasPrefix (s prefix : string) : bool := String.prefix prefix s.

(** [strings.Count(s, sep)] for a one-byte separator. *)
Fixpoint Count (s : string) (sep : ascii) : nat :=
  match s with
  | EmptyString => O
  | String c s' => if decide (c = sep) then S (Count s' sep) else Count s' sep
  end.

Fixpoint repeat_string (s : string) (n : nat) : string :=
  match n with
  | O => EmptyString
  | S n' => s +:+ repeat_string s n'
  end.

(** [strings.Repeat(s, count)] panics on a negative count. *)
Definition Repeat (s : string) (count : Z) : result string :=
  if count <? 0 then Panic NegativeRepeatCount
  else Ok (repeat_string s (Z.to_nat count)).

End strings.

(** ** Package time *)

Module time.

(** A [time.Time] is a count of nanoseconds from the zero [Time]; a
    [time.Duration] is an [int64] of nanoseconds. *)
Definition Millisecond : Z := 1000000.
Definition Second : Z := 1000000000.

(** [t.Sub(u)]: the difference, held at the largest or smallest
    [Duration] when it does not fit. *)
Definition Sub (t u : Z) : Z :=
  Z.max Int64.min_int (Z.min Int64.max_int (t - u)).

(** [d.Seconds()]. *)
Definition Seconds (d : Z) : float :=
  let sec := Z.quot d Second in
  let nsec := Z.rem d Second in
  (Float64.of_int sec + Float64.of_int nsec / 1e9)%float.

End time.

(** ** cmd/cloudflare-speed: the world the program runs in *)

(** An [error] is known by its message. *)
Definition error : Type := string.

(** The request handed to the HTTP client. *)
Record Request : Type := {
  Method : string;
  URL : string;
  Body : string;
  ContentLength : option Z
}.

(** How one timed request ends: at one of the three error returns of
    [request], or with the body read to its end. *)
Inductive reply : Type :=
  | NewRequestError (err : error)
  | DoError (err : error)
  | CopyError (err : error)
  | Response (now_ended : Z) (Server_Timing : string).

(** One request as the network plays it: the clock read at the start, the
    clock read by each [httptrace] hook that fires, and the ending.
    [Server_Timing] is what [resp.Header.Get] returns, empty when the header
    is absent. *)
Record exchange : Type := {
  now_started : Z;
  DNSDone : option Z;
  ConnectDone : option Z;
  TLSHandshakeDone : option Z;
  GotFirstResponseByte : option Z;
  outcome : reply
}.

(** What the program writes to its standard output. *)
Inductive output : Type :=
  | Printf_Error (err : error)
  | PrintPair (key value : string)
  | PrintFloat (label : string) (value : float) (precision : Z) (unit : string).

(** The world: the network's answer to the n-th timed request (which may
    depend on the request), how many have been made, the answer of the
    untimed [get] to each path, and the output so far. *)
Record World : Type := {
  network : nat -> Request -> exchange;
  served : nat;
  fetched : string -> string + error;
  stdout : list output
}.

(** A computation reads and changes the world, and returns or panics. *)
Abbreviation M := (St World).

Definition print (o : output) : M unit := fun w =>
  (Ok tt,
   {| network := network w; served := served w; fetched := fetched w;
      stdout := stdout w ++ [o] |}).

Definition roundTrip (req : Request) : M exchange := fun w =>
  (Ok (network w (served w) req),
   {| network := network w; served := S (served w); fetched := fetched w;
      stdout := stdout w |}).

Record requestTiming : Type := {
  started : Z;
  dnsLookup : Z;
  tcpHandshake : Z;
  sslHandshake : Z;
  ttfb : Z;
  ended : Z;
  serverTiming : float
}.

Definition with_ended (timing : requestTiming) (t : Z) : requestTiming :=
  {| started := started timing; dnsLookup := dnsLookup timing;
     tcpHandshake := tcpHandshake timing; sslHandshake := sslHandshake timing;
     ttfb := ttfb timing; ended := t; serverTiming := serverTiming timing |}.

Definition with_serverTiming (timing : requestTiming) (val : float) : requestTiming :=
  {| started := started timing; dnsLookup := dnsLookup timing;
     tcpHandshake := tcpHandshake timing; sslHandshake := sslHandshake timing;
     ttfb := ttfb timing; ended := ended timing; serverTiming := val |}.

(** ** cmd/cloudflare-speed: the program *)

Section Program.

(** [strconv.ParseFloat(s, 64)]: the value when the error is nil. *)
Variable ParseFloat : string -> option float.

(** [json.Unmarshal] into the slice of [{iata, city}] records. *)
Variable Unmarshal : string -> list (string * string) + error.

Definition get (hostname path : string) : M (string + error) := fun w =>
  (Ok (fetched w path), w).

(** The loop of [fetchServerLocationData]: [result[loc.IATA] = loc.City]. *)
Definition locationTable (locations : list (string * string)) : gmap string string :=
  fold_left (fun result loc => <[loc.1 := loc.2]> result) locations ∅.

Definition fetchServerLocationData : M (gmap string string + error) :=
  r ← get "speed.cloudflare.com" "/locations";
  match r with
  | inr err => mret (inr err)
  | inl data =>
      match Unmarshal data with
      | inr err => mret (inr err)
      | inl locations => mret (inl (locationTable locations))
      end
  end.

(** The body of the loop of [fetchCfCdnCgiTrace] for one line. *)
Definition traceLine (result : gmap string string) (line : string) : gmap string string :=
  let parts := strings.Split line "="%char in
  match parts with
  | [key; value] => <[key := value]> result
  | _ => result
  end.

(** The parsing part of [fetchCfCdnCgiTrace]. *)
Definition traceInfo (data : string) : gmap string string :=
  let lines := strings.Split data "010"%char in
  fold_left traceLine lines ∅.

Definition fetchCfCdnCgiTrace : M (gmap string string + error) :=
  r ← get "speed.cloudflare.com" "/cdn-cgi/trace";
  match r with
  | inr err => mret (inr err)
  | inl data => mret (inl (traceInfo data))
  end.

(** The end of [request]: the Server-Timing header, when there is one. *)
Definition parseServerTiming (timing : requestTiming) (header : string) : requestTiming :=
  if decide (header = "") then timing
  else
    let parts := strings.Split header ";"%char in
    match parts with
    | _ :: part1 :: _ =>
        let durPart := strings.TrimSpace part1 in
        if strings.HasPrefix durPart "dur=" then
          match ParseFloat (strings.from 4 durPart) with
          | Some val => with_serverTiming timing val
          | None => timing
          end
        else timing
    | _ => timing
    end.

(** [http.NewRequest] on the URL, and the Content-Length header that
    [request] sets when there is a body. *)
Definition newRequest (method hostname path data : string) : Request :=
  {| Method := method;
     URL := "https://" +:+ hostname +:+ path;
     Body := data;
     ContentLength :=
       if 0 <? Z.of_nat (String.length data)
       then Some (Z.of_nat (String.length data)) else None |}.

Definition request (method hostname path data : string) : M (requestTiming + error) :=
  let req := newRequest method hostname path data in
  x ← roundTrip req;
  let timing :=
    {| started := now_started x;
       dnsLookup := default 0 (DNSDone x);
       tcpHandshake := default 0 (ConnectDone x);
       sslHandshake := default 0 (TLSHandshakeDone x);
       ttfb := default 0 (GotFirstResponseByte x);
       ended := 0;
       serverTiming := 0%float |} in
  match outcome x with
  | NewRequestError err => mret (inr err)
  | DoError err => mret (inr err)
  | CopyError err => mret (inr err)
  | Response now header =>
      let timing := with_ended timing now in
      mret (inl (parseServerTiming timing header))
  end.

Definition download (bytes : Z) : M (requestTiming + error) :=
  request "GET" "speed.cloudflare.com" ("/__down?bytes=" +:+ pretty bytes) "".

Definition upload (bytes : Z) : M (requestTiming + error) :=
  data ← lift (strings.Repeat "0" bytes);
  request "POST" "speed.cloudflare.com" "/__up" data.

Definition measureSpeed (bytes : Z) (duration : Z) : float :=
  (Float64.of_int (Int64.mul bytes 8) / (time.Seconds duration * 1e6))%float.

(** The sample of one latency probe: time to first byte in milliseconds,
    less the server's processing time. *)
Definition latencyOf (timing : requestTiming) : float :=
  (time.Seconds (time.Sub (ttfb timing) (started timing)) * 1000
   - serverTiming timing)%float.

(** The first loop of [measureLatency], with [n] iterations to go. *)
Fixpoint measureLatency_loop (n : nat) (measurements : list float) : M (list float) :=
  match n with
  | O => mret measurements
  | S n' =>
      r ← download 1000;
      match r with
      | inr err =>
          _ ← print (Printf_Error err);
          measureLatency_loop n' measurements
      | inl timing =>
          measureLatency_loop n' (measurements ++ [latencyOf timing])
      end
  end.

(** The second loop of [measureLatency]. *)
Definition min_max (measurements : list float) (min max : float) : float * float :=
  fold_left
    (fun '(min, max) v =>
       let min := if (v <? min)%float then v else min in
       let max := if (max <? v)%float then v else max in
       (min, max))
    measurements (min, max).

Definition measureLatency : M (list float + error) :=
  measurements ← measureLatency_loop 20 [];
  min ← lift (index measurements 0);
  max ← lift (index measurements 0);
  let '(min, max) := min_max measurements min max in
  median ← lift (Median measurements);
  mret (inl [min; max; Average measurements; median; Jitter measurements]).

Definition downloadSample (bytes : Z) (timing : requestTiming) : float :=
  let transferTime := time.Sub (ended timing) (ttfb timing) in
  measureSpeed bytes transferTime.

Fixpoint measureDownload_loop (bytes : Z) (n : nat) (measurements : list float)
  : M (list float) :=
  match n with
  | O => mret measurements
  | S n' =>
      r ← download bytes;
      match r with
      | inr err =>
          _ ← print (Printf_Error err);
          measureDownload_loop bytes n' measurements
      | inl timing =>
          measureDownload_loop bytes n' (measurements ++ [downloadSample bytes timing])
      end
  end.

Definition measureDownload (bytes iterations : Z) : M (list float + error) :=
  measurements ← measureDownload_loop bytes (Z.to_nat iterations) [];
  mret (inl measurements).

Definition uploadSample (bytes : Z) (timing : requestTiming) : float :=
  let transferTime :=
    Float64.to_int (serverTiming timing * Float64.of_int time.Millisecond)%float in
  measureSpeed bytes transferTime.

Fixpoint measureUpload_loop (bytes : Z) (n : nat) (measurements : list float)
  : M (list float) :=
  match n with
  | O => mret measurements
  | S n' =>
      r ← upload bytes;
      match r with
      | inr err =>
          _ ← print (Printf_Error err);
          measureUpload_loop bytes n' measurements
      | inl timing =>
          measureUpload_loop bytes n' (measurements ++ [uploadSample bytes timing])
      end
  end.

Definition measureUpload (bytes iterations : Z) : M (list float + error) :=
  measurements ← measureUpload_loop bytes (Z.to_nat iterations) [];
  mret (inl measurements).

(** [x, err := m; if err != nil { return fmt.Errorf(msg + ": %w", err) }]. *)
Definition orFail {A} (m : M (A + error)) (msg : string)
    (k : A -> M (option error)) : M (option error) :=
  r ← m;
  match r with
  | inr err => mret (Some (msg +:+ ": " +:+ err))
  | inl x => k x
  end.

(** [m[key]] on a Go map: the empty string when the key is missing. *)
Definition at_key (m : gmap string string) (key : string) : string :=
  default "" (m !! key).

(** The constant [0.9] as a [float64]. *)
Definition q90 : float := 0x1.ccccccccccccdp-1%float.

Definition printMedian (label : string) (test : list float) : M unit :=
  median ← lift (Median test);
  print (PrintFloat label median 2 "Mbps").

Definition printQuartile (label : string) (tests : list float) : M unit :=
  quartile ← lift (Quartile tests q90);
  print (PrintFloat label quartile 2 "Mbps").

Definition speedTest : M (option error) :=
  orFail measureLatency "failed to measure latency" (fun pingResults =>
  orFail fetchServerLocationData "failed to fetch server location data"
    (fun serverLocationData =>
  orFail fetchCfCdnCgiTrace "failed to fetch CDN trace" (fun traceData =>
  let city := at_key serverLocationData (at_key traceData "colo") in
  _ ← print (PrintPair "Server location"
               (city +:+ " (" +:+ at_key traceData "colo" +:+ ")"));
  _ ← print (PrintPair "Your IP"
               (at_key traceData "ip" +:+ " (" +:+ at_key traceData "loc" +:+ ")"));
  latency ← lift (index pingResults 3);
  _ ← print (PrintFloat "Latency" latency 2 "ms");
  jitter ← lift (index pingResults 4);
  _ ← print (PrintFloat "Jitter" jitter 2 "ms");
  orFail (measureDownload 101000 10) "failed to measure 100kB download" (fun testDown1 =>
  _ ← printMedian "100kB speed" testDown1;
  orFail (measureDownload 1001000 8) "failed to measure 1MB download" (fun testDown2 =>
  _ ← printMedian "1MB speed" testDown2;
  orFail (measureDownload 10001000 6) "failed to measure 10MB download" (fun testDown3 =>
  _ ← printMedian "10MB speed" testDown3;
  orFail (measureDownload 25001000 4) "failed to measure 25MB download" (fun testDown4 =>
  _ ← printMedian "25MB speed" testDown4;
  orFail (measureDownload 100001000 1) "failed to measure 100MB download" (fun testDown5 =>
  _ ← printMedian "100MB speed" testDown5;
  let downloadTests :=
    (((testDown1 ++ testDown2) ++ testDown3) ++ testDown4) ++ testDown5 in
  _ ← printQuartile "Download speed" downloadTests;
  orFail (measureUpload 11000 10) "failed to measure 11kB upload" (fun testUp1 =>
  orFail (measureUpload 101000 10) "failed to measure 100kB upload" (fun testUp2 =>
  orFail (measureUpload 1001000 8) "failed to measure 1MB upload" (fun testUp3 =>
  let uploadTests := (testUp1 ++ testUp2) ++ testUp3 in
  _ ← printQuartile "Upload speed" uploadTests;
  mret None))))))))))).

(** *** The phases seen from outside

    What [request] returns is a function of the exchange the network
    plays; a phase sees the exchanges from [served] on, one per iteration. *)

Definition received (x : exchange) : requestTiming + error :=
  match outcome x with
  | NewRequestError err | DoError err | CopyError err => inr err
  | Response now header =>
      inl (parseServerTiming
             {| started := now_started x;
                dnsLookup := default 0 (DNSDone x);
                tcpHandshake := default 0 (ConnectDone x);
                sslHandshake := default 0 (TLSHandshakeDone x);
                ttfb := default 0 (GotFirstResponseByte x);
                ended := now;
                serverTiming := 0%float |}
             header)
  end.

Definition succeeded (x : exchange) : option requestTiming :=
  match received x with inl timing => Some timing | inr _ => None end.

Definition failed (x : exchange) : option error :=
  match received x with inl _ => None | inr err => Some err end.

Definition downloadRequest (bytes : Z) : Request :=
  newRequest "GET" "speed.cloudflare.com" ("/__down?bytes=" +:+ pretty bytes) "".

Definition uploadRequest (bytes : Z) : Request :=
  newRequest "POST" "speed.cloudflare.com" "/__up"
    (strings.repeat_string "0" (Z.to_nat bytes)).

(** The world after [n] more timed requests and the lines [out]. *)
Definition after (w : World) (n : nat) (out : list output) : World :=
  {| network := network w; served := n + served w; fetched := fetched w;
     stdout := stdout w ++ out |}.

(** The exchanges of the next [n] timed requests, each asking [req]. *)
Definition exchanges (w : World) (req : Request) (n : nat) : list exchange :=
  map (fun i => network w (served w + i)%nat req) (seq 0 n).

End Program.

(** ** Reference definitions, in the words of the specification *)

(** The floor of a float: the largest integer not above it. *)
Definition floor (x : float) : option Z :=
  match Prim2SF x with
  | S754_zero _ => Some 0
  | S754_finite s m e => Some (Z.shiftl (if s then Z.neg m else Z.pos m) e)
  | S754_infinity _ | S754_nan => None
  end.

(** What a line gives a key: the value, when the line splits on [=] into
    exactly that key and a value. *)
Definition binding (key line : string) : option string :=
  match strings.Split line "="%char with
  | [k; v] => if decide (k = key) then Some v else None
  | _ => None
  end.

(** The value a key is given by the last [key=value] line that has it. *)
Definition last_value (lines : list string) (key : string) : option string :=
  last (omap (binding key) lines).

(** Where a float stands in the order of [sort.Float64s]: NaN first, then
    the negative infinity, the negative numbers, the zeros, the positive
    numbers and the positive infinity; numbers of one sign by exponent and
    then mantissa. *)
Definition rank (x : spec_float) : Z * Z * Z :=
  match x with
  | S754_nan => (-3, 0, 0)
  | S754_infinity true => (-2, 0, 0)
  | S754_finite true m e => (-1, - e, - Z.pos m)
  | S754_zero _ => (0, 0, 0)
  | S754_finite false m e => (1, e, Z.pos m)
  | S754_infinity false => (2, 0, 0)
  end.

Definition lex_le (a b : Z * Z * Z) : Prop :=
  let '(a1, a2, a3) := a in
  let '(b1, b2, b3) := b in
  a1 < b1 \/ (a1 = b1 /\ (a2 < b2 \/ (a2 = b2 /\ a3 <= b3))).

(** [a] may stand before [b] in a sorted slice. *)
Definition ascending (a b : float) : Prop := less b a = false.

(** A float that is zero, positive, or not a number. *)
Definition not_negative (x : spec_float) : bool :=
  match x with
  | S754_zero _ | S754_nan => true
  | S754_finite s _ _ | S754_infinity s => negb s
  end.

(** Sample variance: the squared deviations from the arithmetic mean,
    summed in list order, over [n - 1]. *)
Definition total (xs : list float) : float :=
  fold_left (fun s x => s + x)%float xs 0%float.

Definition arithmetic_mean (samples : list float) : float :=
  (total samples / Float64.of_int (len samples))%float.

Definition squared_deviations (samples : list float) : list float :=
  let mean := arithmetic_mean samples in
  map (fun v => (v - mean) * (v - mean))%float samples.

Definition sample_variance (samples : list float) : float :=
  (total (squared_deviations samples) / Float64.of_int (len samples - 1))%float.

(** ** A decimal reader and a scripted network, to run the program *)

Fixpoint read_digits (s : string) (mantissa : Z) (n : nat) : Z * nat * string :=
  match s with
  | String c s' =>
      match Ascii.is_nat c with
      | Some d => read_digits s' (10 * mantissa + Z.of_nat d) (S n)
      | None => (mantissa, n, s)
      end
  | EmptyString => (mantissa, n, s)
  end.

(** [strconv.ParseFloat] on a plain decimal, [-12.5] or [7] or [.25], of at
    most fifteen digits: the digits as an integer, divided by the power of
    ten, both exact in a [float64] (the exact path of [strconv]).  Anything
    else is refused, which is what [strconv] does with text that is not a
    number; numbers in other notations are outside this reader. *)
Definition atof (s : string) : option float :=
  let '(neg, s) :=
    match s with
    | String "-" s' => (true, s')
    | String "+" s' => (false, s')
    | _ => (false, s)
    end in
  let '(mantissa, n1, rest) := read_digits s 0 0 in
  let '(mantissa, n2, rest) :=
    match rest with
    | String "." r => read_digits r mantissa 0
    | _ => (mantissa, O, rest)
    end in
  if decide (rest = "" /\ (1 <= n1 + n2 <= 15)%nat) then
    let f := (Float64.of_int mantissa / Float64.of_int (10 ^ Z.of_nat n2))%float in
    Some (if neg then (- f)%float else f)
  else None.

(** No location table is needed by the examples. *)
Definition no_locations (data : string) : list (string * string) + error :=
  inl [].

Definition quiet_exchange (r : reply) : exchange :=
  {| now_started := 0; DNSDone := None; ConnectDone := None;
     TLSHandshakeDone := None; GotFirstResponseByte := Some 20000000;
     outcome := r |}.

(** A trace payload as the service sends it. *)
Definition trace_payload : string :=
  "fl=1f1
h=speed.cloudflare.com
ip=192.0.2.7
colo=SJC
loc=US
".

(** A world whose network plays the script [f], whatever is asked. *)
Definition scripted (f : nat -> reply) : World :=
  {| network := fun n _ => quiet_exchange (f n);
     served := 0;
     fetched := fun _ => inl trace_payload;
     stdout := [] |}.

(** A network on which every request fails. *)
Definition unreachable : World :=
  scripted (fun _ => DoError "dial tcp: connection refused").

(** Three iterations, of which the second fails. *)
Definition second_fails : World :=
  scripted (fun n => if decide (n = 1%nat)
                     then DoError "read: connection reset by peer"
                     else Response 30000000 "cf-edge; dur=12.5").

(** ** The console of the single-file program

    The single-file variant of the program prints through [logInfo],
    [logLatency], [logSpeedTestResult], [logDownloadSpeed] and
    [logUploadSpeed]; its [median] and [quartile] are [Median] and
    [Quartile] above, word for word.  The state is the lines printed so far.
    The colour functions of package color, applied to string operands, and
    the [%.2f] formatting of package fmt are parameters. *)

Section Console.

Variables bold blue magenta yellow green : list string -> string.
Variable Sprintf_2f : float -> string.

(** [fmt.Println(line)]. *)
Definition Println (line : string) : St (list string) unit := fun out =>
  (Ok tt, out ++ [line]).

Definition logInfo (text data : string) : St (list string) unit :=
  let padding := 15 - Z.of_nat (String.length text) in
  let padding := if padding <? 0 then 0 else padding in
  spaces ← lift (strings.Repeat " " padding);
  Println (bold [spaces; text +:+ ":"; blue [data]]).

Definition logLatency (data : list float) : St (list string) unit :=
  latency ← lift (index data 3);
  _ ← Println (bold ["         Latency:"; magenta [Sprintf_2f latency +:+ " ms"]]);
  jitter ← lift (index data 4);
  Println (bold ["          Jitter:"; magenta [Sprintf_2f jitter +:+ " ms"]]).

Definition logSpeedTestResult (size : string) (test : list float)
  : St (list string) unit :=
  let padding := 9 - Z.of_nat (String.length size) in
  let padding := if padding <? 0 then 0 else padding in
  speed ← lift (Median test);
  spaces ← lift (strings.Repeat " " padding);
  Println (bold [spaces; size; "speed:"; yellow [Sprintf_2f speed +:+ " Mbps"]]).

Definition logDownloadSpeed (tests : list float) : St (list string) unit :=
  speed ← lift (Quartile tests q90);
  Println (bold ["  Download speed:"; green [Sprintf_2f speed +:+ " Mbps"]]).

Definition logUploadSpeed (tests : list float) : St (list string) unit :=
  speed ← lift (Quartile tests q90);
  Println (bold ["    Upload speed:"; green [Sprintf_2f speed +:+ " Mbps"]]).

End Console.

(** The pieces of a split put together again, the separator between them. *)
Fixpoint joined (pieces : list string) (sep : ascii) : string :=
  match pieces with
  | [] => EmptyString
  | [piece] => piece
  | piece :: rest => piece +:+ String sep (joined rest sep)
  end.

(** The city a table gives a code: that of the last record with the code. *)
Definition last_city (locations : list (string * string)) (iata : string)
  : option string :=
  last (omap (fun loc : string * string =>
                if decide (loc.1 = iata) then Some loc.2 else None) locations).

(** A decoder of one fixed answer, for the examples. *)
Definition two_airports (data : string) : list (string * string) + error :=
  if decide (data = trace_payload)
  then inl [("SJC", "San Jose"); ("ORD", "Chicago"); ("SJC", "Mineta")]
  else inr "unexpected end of JSON input".

(** A terminal without colours, and a formatter that shows no digits. *)
Definition plain (operands : list string) : string :=
  foldr String.app EmptyString operands.

Definition no_digits (x : float) : string := "#.##".

(** * Properties *)

(** ** The order of [sort.Float64s] *)

Lemma SFcompare_antisym (x y : spec_float) :
  SFcompare y x = option_map CompOpp (SFcompare x y).
Proof.
  destruct x as [[]|[]| |[] m1 e1], y as [[]|[]| |[] m2 e2];
    simpl; try reflexivity;
    rewrite (Z.compare_antisym e1 e2);
    destruct (e1 ?= e2); simpl; try reflexivity;
    pose proof (Pos.compare_cont_antisym m1 m2 Eq) as H; simpl in H;
    rewrite <- H; destruct (Pos.compare_cont Eq m1 m2); reflexivity.
Qed.

Lemma SFcompare_refl (x : spec_float) :
  SFcompare x x = match x with S754_nan => None | _ => Some Eq end.
Proof.
  destruct x as [[]|[]| |[] m e]; simpl; try reflexivity;
    rewrite Z.compare_refl;
    change (PosDef.Pos.compare_cont Eq m m) with (Pos.compare_cont Eq m m);
    rewrite Pos.compare_cont_refl; reflexivity.
Qed.

Lemma SFcompare_nan_r (x : spec_float) : SFcompare x S754_nan = None.
Proof. destruct x as [[]|[]| |[] m e]; reflexivity. Qed.

Lemma is_nan_spec (x : float) :
  Float64.is_nan x = match Prim2SF x with S754_nan => true | _ => false end.
Proof.
  unfold Float64.is_nan. rewrite FloatAxioms.eqb_spec. unfold SFeqb.
  rewrite SFcompare_refl. destruct (Prim2SF x); reflexivity.
Qed.

(** [less] is asymmetric, which is what makes insertion keep the order. *)
Lemma less_asym (x y : float) : less x y = true -> less y x = false.
Proof.
  unfold less. rewrite !is_nan_spec, !FloatAxioms.ltb_spec. unfold SFltb.
  rewrite (SFcompare_antisym (Prim2SF x) (Prim2SF y)).
  destruct (Prim2SF x) as [[]|[]| |[] m1 e1], (Prim2SF y) as [[]|[]| |[] m2 e2];
    simpl; try discriminate; try reflexivity;
    destruct (e1 ?= e2); simpl; try discriminate; try reflexivity;
    destruct (PosDef.Pos.compare_cont Eq m1 m2); simpl;
    try discriminate; reflexivity.
Qed.

Lemma ascending_rank (a b : float) :
  ascending a b <-> lex_le (rank (Prim2SF a)) (rank (Prim2SF b)).
Proof.
  unfold ascending, less. rewrite !is_nan_spec, FloatAxioms.ltb_spec.
  unfold SFltb.
  destruct (Prim2SF a) as [[]|[]| |[] m1 e1], (Prim2SF b) as [[]|[]| |[] m2 e2];
    cbn; try (split; [intros _; lia | reflexivity]);
    try (split; [discriminate | lia]);
    change (PosDef.Pos.compare_cont Eq m2 m1) with (Pos.compare m2 m1);
    destruct (Z.compare_spec e2 e1); destruct (Pos.compare_spec m2 m1);
    cbn; split; try discriminate; try reflexivity; lia.
Qed.

#[local] Instance ascending_transitive : Transitive ascending.
Proof.
  intros a b c. rewrite !ascending_rank.
  destruct (rank (Prim2SF a)) as [[a1 a2] a3],
           (rank (Prim2SF b)) as [[b1 b2] b3],
           (rank (Prim2SF c)) as [[c1 c2] c3].
  unfold lex_le. lia.
Qed.

Lemma less_irrefl (x : float) : less x x = false.
Proof. destruct (less x x) eqn:E; [ apply less_asym in E as E' |]; congruence. Qed.

(** ** [sort.Float64s] returns the same elements, in order *)

Lemma insert_sorted_Permutation (x : float) (l : list float) :
  Permutation (x :: l) (insert_sorted x l).
Proof.
  induction l as [|h t IH]; simpl.
  - reflexivity.
  - destruct (less x h).
    + reflexivity.
    + rewrite <- IH. apply perm_swap.
Qed.

Lemma sort_Float64s_Permutation (l : list float) :
  Permutation l (sort_Float64s l).
Proof.
  induction l as [|x l IH]; simpl.
  - reflexivity.
  - rewrite <- insert_sorted_Permutation. now apply perm_skip.
Qed.

Lemma sort_Float64s_length (l : list float) :
  length (sort_Float64s l) = length l.
Proof. symmetry. apply Permutation_length, sort_Float64s_Permutation. Qed.

Lemma insert_sorted_sorted (x : float) (l : list float) :
  Float64sAreSorted l = true -> Float64sAreSorted (insert_sorted x l) = true.
Proof.
  induction l as [|h t IH]; intros Hs.
  - reflexivity.
  - cbn [insert_sorted]. destruct (less x h) eqn:E.
    + cbn [Float64sAreSorted]. rewrite (less_asym _ _ E). exact Hs.
    + destruct t as [|h' t'].
      * cbn. rewrite E. reflexivity.
      * cbn [Float64sAreSorted] in Hs. apply andb_prop in Hs as [Hh Ht].
        specialize (IH Ht). cbn [insert_sorted] in IH |- *.
        destruct (less x h') eqn:E'.
        -- cbn [Float64sAreSorted] in IH |- *.
           rewrite E. cbn [negb andb]. exact IH.
        -- cbn [Float64sAreSorted]. rewrite Hh. exact IH.
Qed.

Lemma sort_Float64s_sorted (l : list float) :
  Float64sAreSorted (sort_Float64s l) = true.
Proof.
  induction l as [|x l IH]; simpl.
  - reflexivity.
  - now apply insert_sorted_sorted.
Qed.

Lemma Float64sAreSorted_Sorted (l : list float) :
  Float64sAreSorted l = true -> Sorted ascending l.
Proof.
  induction l as [|a l IH]; intros Hs; [constructor|].
  destruct l as [|b t].
  - repeat constructor.
  - cbn [Float64sAreSorted] in Hs. apply andb_prop in Hs as [Hab Ht].
    constructor; [now apply IH|]. constructor.
    unfold ascending. now destruct (less b a).
Qed.

Lemma StronglySorted_lookup (l : list float) :
  StronglySorted ascending l ->
  forall i j a b,
    (i <= j)%nat -> l !! i = Some a -> l !! j = Some b -> ascending a b.
Proof.
  induction 1 as [|x l Hl IH Hx]; intros i j a b Hij Ha Hb; [discriminate|].
  destruct i as [|i], j as [|j]; cbn in Ha, Hb.
  - injection Ha as <-. injection Hb as <-. apply less_irrefl.
  - injection Ha as <-. rewrite Forall_forall in Hx. apply Hx.
    eapply list_elem_of_lookup_2, Hb.
  - lia.
  - apply (IH i j); [lia|assumption..].
Qed.

(** The sorted copy is in ascending order throughout: no element is [less]
    than one before it. *)
Lemma sort_Float64s_ascending (l : list float) (i j : nat) (a b : float) :
  (i <= j)%nat ->
  sort_Float64s l !! i = Some a -> sort_Float64s l !! j = Some b ->
  ascending a b.
Proof.
  apply StronglySorted_lookup, Sorted_StronglySorted.
  - exact ascending_transitive.
  - apply Float64sAreSorted_Sorted, sort_Float64s_sorted.
Qed.

(** ** Indexing *)

Lemma len_nonneg {A} (s : list A) : 0 <= len s.
Proof. unfold len. lia. Qed.

Lemma index_in_range {A} (s : list A) (i : Z) :
  0 <= i < len s ->
  exists v, s !! Z.to_nat i = Some v /\ index s i = Ok v.
Proof.
  intros Hi. unfold index, len in *.
  destruct (lookup_lt_is_Some_2 s (Z.to_nat i)) as [v Hv]; [lia|].
  exists v. split; [exact Hv|].
  replace (0 <=? i) with true by (symmetry; apply Z.leb_le; lia).
  replace (i <? Z.of_nat (length s)) with true by (symmetry; apply Z.ltb_lt; lia).
  cbn. rewrite Hv. reflexivity.
Qed.

Lemma index_out_of_range {A} (s : list A) (i : Z) :
  ~ (0 <= i < len s) -> index s i = Panic (IndexOutOfRange i (len s)).
Proof.
  intros Hi. unfold index.
  destruct (0 <=? i) eqn:E1; [|reflexivity].
  destruct (i <? len s) eqn:E2; [|reflexivity].
  apply Z.leb_le in E1. apply Z.ltb_lt in E2. lia.
Qed.

Lemma len_sort_Float64s (l : list float) : len (sort_Float64s l) = len l.
Proof. unfold len. now rewrite sort_Float64s_length. Qed.

(** ** The statistics *)

(** C8.  Each of the four statistics functions, Average, Median, Jitter and
    Quartile (at every [q]), returns 0 on an empty sample list: a returned
    value, not a panic. *)
Theorem statistics_of_no_samples :
  Average [] = 0%float /\
  Median [] = Ok 0%float /\
  Jitter [] = 0%float /\
  forall q, Quartile [] q = Ok 0%float.
Proof. repeat split. Qed.

Lemma Median_odd (values : list float) (k : nat) :
  length values = (2 * k + 1)%nat ->
  exists m, sort_Float64s values !! k = Some m /\ Median values = Ok m.
Proof.
  intros Hn. unfold Median. rewrite len_sort_Float64s. unfold len. rewrite Hn.
  replace (Z.of_nat (2 * k + 1)) with (1 + Z.of_nat k * 2) by lia.
  rewrite Z.quot_add by lia. rewrite Z.rem_add by lia.
  destruct (1 + Z.of_nat k * 2 =? 0) eqn:E0; [apply Z.eqb_eq in E0; lia|].
  cbn [Z.rem Z.quot Z.quotrem Z.eqb fst snd].
  destruct (index_in_range (sort_Float64s values) (Z.of_nat k)) as (m & Hm & Hi).
  { rewrite len_sort_Float64s. unfold len. lia. }
  rewrite Nat2Z.id in Hm. exists m. split; [exact Hm|].
  replace (Z.quot 1 2 + Z.of_nat k) with (Z.of_nat k) by reflexivity.
  exact Hi.
Qed.

Lemma Median_even (values : list float) (k : nat) :
  length values = (2 * k + 2)%nat ->
  exists a b,
    sort_Float64s values !! k = Some a /\
    sort_Float64s values !! S k = Some b /\
    Median values = Ok ((a + b) / 2)%float.
Proof.
  intros Hn. unfold Median. rewrite len_sort_Float64s. unfold len. rewrite Hn.
  replace (Z.of_nat (2 * k + 2)) with (0 + (Z.of_nat k + 1) * 2) by lia.
  rewrite Z.quot_add by lia. rewrite Z.rem_add by lia.
  destruct (0 + (Z.of_nat k + 1) * 2 =? 0) eqn:E0; [apply Z.eqb_eq in E0; lia|].
  cbn [Z.rem Z.quot Z.quotrem Z.eqb fst snd].
  replace (Z.quot 0 2 + (Z.of_nat k + 1)) with (Z.of_nat (S k))
    by (change (Z.quot 0 2) with 0; lia).
  replace (Z.of_nat (S k) - 1) with (Z.of_nat k) by lia.
  destruct (index_in_range (sort_Float64s values) (Z.of_nat k)) as (a & Ha & Hia).
  { rewrite len_sort_Float64s. unfold len. lia. }
  destruct (index_in_range (sort_Float64s values) (Z.of_nat (S k))) as (b & Hb & Hib).
  { rewrite len_sort_Float64s. unfold len. lia. }
  rewrite Nat2Z.id in Ha, Hb. exists a, b. repeat split; try assumption.
  rewrite Hia. cbn. rewrite Hib. reflexivity.
Qed.

(** C7.  For every sample list, Median works on a sorted copy (the same
    elements, in ascending order) and returns its middle element when the
    count is odd and the mean of its two middle elements when the count is
    even; it returns 0 for the empty list, Median [1,2,3] is 2 and
    Median [1,2,3,4] is 2.5. *)
Theorem Median_middle_of_sorted (values : list float) :
  let sorted := sort_Float64s values in
  Permutation values sorted /\
  Float64sAreSorted sorted = true /\
  (forall i j a b,
     (i <= j)%nat -> sorted !! i = Some a -> sorted !! j = Some b ->
     ascending a b) /\
  (forall k, length values = (2 * k + 1)%nat ->
     exists m, sorted !! k = Some m /\ Median values = Ok m) /\
  (forall k, length values = (2 * k + 2)%nat ->
     exists a b, sorted !! k = Some a /\ sorted !! S k = Some b /\
       Median values = Ok ((a + b) / 2)%float) /\
  Median [] = Ok 0%float /\
  Median [1; 2; 3]%float = Ok 2%float /\
  Median [1; 2; 3; 4]%float = Ok 2.5%float.
Proof.
  cbv zeta. split; [apply sort_Float64s_Permutation|].
  split; [apply sort_Float64s_sorted|].
  split; [intros i j a b; apply sort_Float64s_ascending|].
  split; [intros k; apply Median_odd|].
  split; [intros k; apply Median_even|].
  repeat split; vm_compute; reflexivity.
Qed.

Lemma fold_left_map_add (f : float -> float) (l : list float) (a : float) :
  fold_left (fun s d => s + d)%float (map f l) a
  = fold_left (fun s v => s + f v)%float l a.
Proof. revert a. induction l as [|x l IH]; intros a; simpl; [reflexivity|apply IH]. Qed.

Lemma Average_is_mean (values : list float) :
  values <> [] -> Average values = arithmetic_mean values.
Proof.
  intros Hne. unfold Average, arithmetic_mean, total, sum_from.
  destruct (len values =? 0) eqn:E; [|reflexivity].
  apply Z.eqb_eq in E. destruct values; [congruence|]. unfold len in E. cbn [length] in E. lia.
Qed.

Lemma Jitter_variance (values : list float) :
  (2 <= length values)%nat -> Jitter values = sample_variance values.
Proof.
  intros Hn. unfold Jitter, sample_variance, squared_deviations, total.
  destruct (len values <=? 1) eqn:E.
  { apply Z.leb_le in E. unfold len in E. lia. }
  rewrite fold_left_map_add, Average_is_mean; [reflexivity|].
  intros ->. simpl in Hn. lia.
Qed.

(** C6.  For every sample list, Jitter is the sample variance about the
    arithmetic mean with the divisor n-1 (the squared deviations summed in
    list order, over n-1), and it is 0 for a list of at most one element;
    Jitter [5,5,5] is 0 and Jitter [1,2,3] is 1. *)
Theorem Jitter_is_sample_variance (values : list float) :
  ((length values <= 1)%nat -> Jitter values = 0%float) /\
  ((2 <= length values)%nat -> Jitter values = sample_variance values) /\
  Jitter [5; 5; 5]%float = 0%float /\
  Jitter [1; 2; 3]%float = 1%float.
Proof.
  split.
  { intros Hn. unfold Jitter.
    replace (len values <=? 1) with true; [reflexivity|].
    symmetry. apply Z.leb_le. unfold len. lia. }
  split; [apply Jitter_variance|].
  split; vm_compute; reflexivity.
Qed.

(** ** Signs through float64 arithmetic *)

Lemma binary_round_aux_sign (s : bool) (m e : Z) (l : location) :
  match binary_round_aux prec emax s m e l with
  | S754_zero s' | S754_infinity s' | S754_finite s' _ _ => s' = s
  | S754_nan => True
  end.
Proof.
  unfold binary_round_aux.
  destruct (shr_fexp prec emax m e l) as [mrs' e'].
  destruct (shr_fexp prec emax _ e' loc_Exact) as [mrs'' e''].
  destruct (shr_m mrs''); [reflexivity| |exact I].
  destruct (e'' <=? emax - prec); reflexivity.
Qed.

Lemma binary_round_aux_not_negative (m e : Z) (l : location) :
  not_negative (binary_round_aux prec emax false m e l) = true.
Proof.
  pose proof (binary_round_aux_sign false m e l) as H.
  destruct (binary_round_aux prec emax false m e l); cbn; subst; reflexivity.
Qed.

Lemma SFmul_not_negative (x y : spec_float) :
  not_negative x = true -> not_negative y = true ->
  not_negative (SF64mul x y) = true.
Proof.
  destruct x as [sx|[]| |[] mx ex], y as [sy|[]| |[] my ey];
    cbn; try discriminate; try reflexivity; intros _ _;
    apply binary_round_aux_not_negative.
Qed.

Lemma of_int_not_negative (z : Z) :
  0 <= z -> not_negative (Prim2SF (Float64.of_int z)) = true.
Proof.
  intros Hz. unfold Float64.of_int.
  replace (z =? - 2 ^ 63) with false by (symmetry; apply Z.eqb_neq; lia).
  replace (z <? 0) with false by (symmetry; apply Z.ltb_ge; lia).
  rewrite of_uint63_spec.
  pose proof (Uint63.to_Z_bounded (Uint63.of_Z z)) as [Hlo _].
  destruct (Uint63.to_Z (Uint63.of_Z z)) as [|v|v]; [reflexivity| |lia].
  cbn [binary_normalize]. unfold binary_round.
  destruct (shl_align _ _ _) as [mz ez].
  apply binary_round_aux_not_negative.
Qed.

Lemma leb_zero_not_negative (q : float) :
  (0 <=? q)%float = true -> not_negative (Prim2SF q) = true.
Proof.
  rewrite FloatAxioms.leb_spec. unfold SFleb.
  change (Prim2SF 0) with (S754_zero false).
  destruct (Prim2SF q) as [s|[]| |[] m e]; cbn; congruence.
Qed.

Lemma floor_not_negative (x : float) :
  not_negative (Prim2SF x) = true ->
  floor x = Float64.trunc x /\ forall p, floor x = Some p -> 0 <= p.
Proof.
  unfold floor, Float64.trunc.
  destruct (Prim2SF x) as [s|s| |[] m e]; cbn; try discriminate; intros _.
  - split; [reflexivity|]. intros p [= <-]. lia.
  - split; [reflexivity|]. discriminate.
  - split; [reflexivity|]. discriminate.
  - split; [reflexivity|]. intros p [= <-]. now apply Z.shiftl_nonneg.
Qed.

Lemma to_int_fits (x : float) (p : Z) :
  Float64.trunc x = Some p -> 0 <= p < 2 ^ 63 -> Float64.to_int x = p.
Proof.
  intros Ht Hp. unfold Float64.to_int. rewrite Ht.
  unfold Int64.in_range, Int64.min_int, Int64.max_int.
  replace (- 2 ^ 63 <=? p) with true by (symmetry; apply Z.leb_le; lia).
  replace (p <=? 2 ^ 63 - 1) with true by (symmetry; apply Z.leb_le; lia).
  reflexivity.
Qed.

Lemma Quartile_at_floor (values : list float) (q : float) (p : Z) :
  values <> [] ->
  (0 <=? q)%float = true ->
  floor (Float64.of_int (len values) * q) = Some p ->
  p < 2 ^ 63 ->
  exists v,
    sort_Float64s values !! Z.to_nat (Z.min p (len values - 1)) = Some v /\
    Quartile values q = Ok v.
Proof.
  intros Hne Hq Hfloor Hp.
  assert (Hn : 0 < len values).
  { destruct values; [congruence|]. unfold len. cbn [length]. lia. }
  destruct (floor_not_negative (Float64.of_int (len values) * q)) as [Heq Hpos].
  { rewrite mul_spec. apply SFmul_not_negative.
    - apply of_int_not_negative. lia.
    - now apply leb_zero_not_negative. }
  specialize (Hpos p Hfloor). rewrite Heq in Hfloor.
  unfold Quartile. rewrite len_sort_Float64s.
  replace (len values =? 0) with false by (symmetry; apply Z.eqb_neq; lia).
  rewrite (to_int_fits _ p Hfloor) by lia.
  replace (if p >=? len values then len values - 1 else p)
    with (Z.min p (len values - 1)).
  2:{ destruct (p >=? len values) eqn:E.
      - apply Z.geb_le in E. lia.
      - rewrite Z.geb_leb in E. apply Z.leb_gt in E. lia. }
  apply index_in_range. rewrite len_sort_Float64s. lia.
Qed.

(** C2, as the code has it.  For every non-empty sample list of length n
    and every q that is at least 0 and whose product n*q (in float64) is
    below 2^63, Quartile works on a sorted copy (the same elements, in
    ascending order) and returns its element at index floor(n*q), held at
    n-1 when floor(n*q) is n or more; Quartile [1..10] 0.9 is 10,
    Quartile [1,2] 1.0 is the element at index 1, and Quartile of the empty
    list is 0. *)
Theorem Quartile_nearest_rank :
  (forall (values : list float) (q : float) (p : Z),
     values <> [] ->
     (0 <=? q)%float = true ->
     floor (Float64.of_int (len values) * q) = Some p ->
     p < 2 ^ 63 ->
     Permutation values (sort_Float64s values) /\
     Float64sAreSorted (sort_Float64s values) = true /\
     (forall i j a b,
        (i <= j)%nat ->
        sort_Float64s values !! i = Some a ->
        sort_Float64s values !! j = Some b ->
        ascending a b) /\
     exists v,
       sort_Float64s values !! Z.to_nat (Z.min p (len values - 1)) = Some v /\
       Quartile values q = Ok v) /\
  Quartile [1; 2; 3; 4; 5; 6; 7; 8; 9; 10]%float q90 = Ok 10%float /\
  Quartile [1; 2]%float 1%float = Ok 2%float /\
  (forall q, Quartile [] q = Ok 0%float).
Proof.
  split.
  { intros values q p Hne Hq Hfloor Hp.
    split; [apply sort_Float64s_Permutation|].
    split; [apply sort_Float64s_sorted|].
    split; [intros i j a b; apply sort_Float64s_ascending|].
    now apply Quartile_at_floor. }
  repeat split; vm_compute; reflexivity.
Qed.

Lemma Quartile_nearest_rank_witness :
  exists v,
    sort_Float64s [30; 10; 20]%float !! 1%nat = Some v /\
    Quartile [30; 10; 20]%float 0.5%float = Ok v.
Proof.
  refine (proj2 (proj2 (proj2
            (proj1 Quartile_nearest_rank [30; 10; 20]%float 0.5%float 1 _ _ _ _)))).
  - discriminate.
  - vm_compute. reflexivity.
  - vm_compute. reflexivity.
  - reflexivity.
Defined.

(** C2, as it was stated, fails for a negative q: with two samples and
    q = -0.5 the index floor(n*q) is -1, and Quartile panics on the index
    instead of returning an element. *)
Lemma Quartile_negative_q_panics :
  floor (Float64.of_int (len [1; 2]%float) * (-0.5))%float = Some (-1) /\
  Quartile [1; 2]%float (-0.5)%float = Panic (IndexOutOfRange (-1) 2) /\
  ~ (exists v, Quartile [1; 2]%float (-0.5)%float = Ok v).
Proof.
  split; [vm_compute; reflexivity|].
  split; [vm_compute; reflexivity|].
  intros [v Hv]. vm_compute in Hv. discriminate.
Qed.

(** ** Splitting strings *)

Lemma Split_length (s : string) (sep : ascii) :
  length (strings.Split s sep) = S (strings.Count s sep).
Proof.
  induction s as [|c s IH]; cbn; [reflexivity|].
  destruct (decide (c = sep)); cbn; [now rewrite IH|].
  destruct (strings.Split s sep); cbn in *; [discriminate|exact IH].
Qed.

Lemma Split_no_separator (s : string) (sep : ascii) :
  strings.Count s sep = 0%nat -> strings.Split s sep = [s].
Proof.
  induction s as [|c s IH]; cbn; [reflexivity|].
  destruct (decide (c = sep)); [discriminate|].
  intros H. now rewrite (IH H).
Qed.

(** ** Timed requests and phases *)

Section PhaseProperties.

Variable ParseFloat : string -> option float.

Lemma after_0_nil (w : World) : after w 0 [] = w.
Proof.
  destruct w as [net k f out]. unfold after. cbn.
  rewrite app_nil_r. reflexivity.
Qed.

Lemma after_after (w : World) (n m : nat) (o o' : list output) :
  after (after w n o) m o' = after w (n + m) (o ++ o').
Proof.
  unfold after. cbn. rewrite app_assoc.
  replace (m + (n + served w))%nat with (n + m + served w)%nat by lia.
  reflexivity.
Qed.

Lemma exchanges_S (w w' : World) (req : Request) (n : nat) :
  network w' = network w -> served w' = S (served w) ->
  exchanges w req (S n) = network w (served w) req :: exchanges w' req n.
Proof.
  intros Hnet Hserved. unfold exchanges. cbn [seq map].
  rewrite Nat.add_0_r, Hnet, Hserved. f_equal.
  rewrite <- seq_shift, map_map. apply map_ext. intros i.
  f_equal. lia.
Qed.

Lemma exchanges_length (w : World) (req : Request) (n : nat) :
  length (exchanges w req n) = n.
Proof. unfold exchanges. rewrite length_map. apply length_seq. Qed.

Lemma roundTrip_after (req : Request) (w : World) :
  roundTrip req w = (Ok (network w (served w) req), after w 1 []).
Proof.
  unfold roundTrip, after. rewrite app_nil_r. reflexivity.
Qed.

Lemma print_after (o : output) (w : World) :
  print o w = (Ok tt, after w 0 [o]).
Proof. reflexivity. Qed.

(** [request] returns what [received] says of the exchange played. *)
Lemma request_received (method hostname path data : string) (w : World) :
  request ParseFloat method hostname path data w
  = (Ok (received ParseFloat
           (network w (served w) (newRequest method hostname path data))),
     after w 1 []).
Proof.
  unfold request, mbind, St_bind. rewrite roundTrip_after.
  unfold received. destruct (outcome _); reflexivity.
Qed.

Lemma download_received (bytes : Z) (w : World) :
  download ParseFloat bytes w
  = (Ok (received ParseFloat (network w (served w) (downloadRequest bytes))),
     after w 1 []).
Proof. unfold download. rewrite request_received. reflexivity. Qed.

Lemma upload_received (bytes : Z) (w : World) :
  0 <= bytes ->
  upload ParseFloat bytes w
  = (Ok (received ParseFloat (network w (served w) (uploadRequest bytes))),
     after w 1 []).
Proof.
  intros Hb. unfold upload, mbind, St_bind, lift, strings.Repeat.
  replace (bytes <? 0) with false by (symmetry; apply Z.ltb_ge; lia).
  rewrite request_received. reflexivity.
Qed.

Lemma upload_negative (bytes : Z) (w : World) :
  bytes < 0 -> upload ParseFloat bytes w = (Panic NegativeRepeatCount, w).
Proof.
  intros Hb. unfold upload, mbind, St_bind, lift, strings.Repeat.
  replace (bytes <? 0) with true by (symmetry; apply Z.ltb_lt; lia).
  reflexivity.
Qed.

(** A loop over [n] iterations appends one sample per exchange that
    succeeded, in order, and prints one line per exchange that failed. *)
Ltac phase_loop received_eq IH :=
  unfold mbind, St_bind; rewrite received_eq;
  match goal with
  | |- context [exchanges ?w ?req (S ?n)] =>
      rewrite (exchanges_S w (after w 1 []) req n) by reflexivity
  end;
  cbn [omap list_omap fmap list_fmap]; unfold succeeded, failed;
  match goal with
  | |- context [received ParseFloat ?x] =>
      destruct (received ParseFloat x) as [timing|err]
  end;
  [ rewrite IH, after_after; cbn [fmap option_fmap option_map];
    rewrite <- app_assoc; reflexivity
  | rewrite print_after, after_after, IH, after_after;
    cbn [fmap option_fmap option_map]; reflexivity ].

Lemma measureDownload_loop_spec (bytes : Z) (n : nat) :
  forall (measurements : list float) (w : World),
    let xs := exchanges w (downloadRequest bytes) n in
    measureDownload_loop ParseFloat bytes n measurements w
    = (Ok (measurements
           ++ omap (fun x => downloadSample bytes <$> succeeded ParseFloat x) xs),
       after w n (Printf_Error <$> omap (failed ParseFloat) xs)).
Proof.
  induction n as [|n IH]; intros measurements w; cbv zeta.
  - cbn. rewrite app_nil_r, after_0_nil. reflexivity.
  - cbn [measureDownload_loop]. cbv zeta in IH.
    phase_loop download_received IH.
Qed.

Lemma measureUpload_loop_spec (bytes : Z) (n : nat) :
  0 <= bytes ->
  forall (measurements : list float) (w : World),
    let xs := exchanges w (uploadRequest bytes) n in
    measureUpload_loop ParseFloat bytes n measurements w
    = (Ok (measurements
           ++ omap (fun x => uploadSample bytes <$> succeeded ParseFloat x) xs),
       after w n (Printf_Error <$> omap (failed ParseFloat) xs)).
Proof.
  intros Hb.
  induction n as [|n IH]; intros measurements w; cbv zeta.
  - cbn. rewrite app_nil_r, after_0_nil. reflexivity.
  - cbn [measureUpload_loop]. cbv zeta in IH.
    phase_loop (fun w => upload_received bytes w Hb) IH.
Qed.

Lemma measureLatency_loop_spec (n : nat) :
  forall (measurements : list float) (w : World),
    let xs := exchanges w (downloadRequest 1000) n in
    measureLatency_loop ParseFloat n measurements w
    = (Ok (measurements
           ++ omap (fun x => latencyOf <$> succeeded ParseFloat x) xs),
       after w n (Printf_Error <$> omap (failed ParseFloat) xs)).
Proof.
  induction n as [|n IH]; intros measurements w; cbv zeta.
  - cbn. rewrite app_nil_r, after_0_nil. reflexivity.
  - cbn [measureLatency_loop]. cbv zeta in IH.
    phase_loop download_received IH.
Qed.

Lemma samples_and_failures {B} (f : requestTiming -> B) (xs : list exchange) :
  (length (omap (fun x => f <$> succeeded ParseFloat x) xs)
   + length (omap (failed ParseFloat) xs))%nat = length xs.
Proof.
  induction xs as [|x xs IH]; [reflexivity|].
  cbn [omap list_omap]. unfold succeeded, failed in *.
  destruct (received ParseFloat x); cbn [fmap option_fmap option_map length]; lia.
Qed.

Lemma phase_count (f : requestTiming -> float) (w : World) (req : Request)
    (iterations : Z) :
  0 <= iterations ->
  let xs := exchanges w req (Z.to_nat iterations) in
  len (omap (fun x => f <$> succeeded ParseFloat x) xs)
  = iterations - len (omap (failed ParseFloat) xs).
Proof.
  intros Hn xs. unfold len.
  pose proof (samples_and_failures f xs) as H.
  unfold xs in H at 3. rewrite exchanges_length in H. lia.
Qed.

(** C4.  For a download or upload phase of N iterations (N not negative, and
    for an upload a payload size that is not negative) in which K of the N
    exchanges fail, the phase returns, with a nil error and without a panic,
    exactly the samples of the exchanges that succeeded, in iteration
    order: N-K of them, never more than N; and it prints one error line per
    failed exchange. *)
Theorem phase_drops_failed_iterations (bytes iterations : Z) (w : World) :
  0 <= iterations ->
  (let xs := exchanges w (downloadRequest bytes) (Z.to_nat iterations) in
   let K := len (omap (failed ParseFloat) xs) in
   exists samples w',
     measureDownload ParseFloat bytes iterations w = (Ok (inl samples), w') /\
     samples = omap (fun x => downloadSample bytes <$> succeeded ParseFloat x) xs /\
     len samples = iterations - K /\
     len samples <= iterations /\
     stdout w' = stdout w ++ (Printf_Error <$> omap (failed ParseFloat) xs))
  /\
  (0 <= bytes ->
   let xs := exchanges w (uploadRequest bytes) (Z.to_nat iterations) in
   let K := len (omap (failed ParseFloat) xs) in
   exists samples w',
     measureUpload ParseFloat bytes iterations w = (Ok (inl samples), w') /\
     samples = omap (fun x => uploadSample bytes <$> succeeded ParseFloat x) xs /\
     len samples = iterations - K /\
     len samples <= iterations /\
     stdout w' = stdout w ++ (Printf_Error <$> omap (failed ParseFloat) xs)).
Proof.
  intros Hn. split; [|intros Hb]; cbv zeta.
  - eexists _, _. split.
    { unfold measureDownload, mbind, St_bind.
      rewrite measureDownload_loop_spec. cbn [app]. reflexivity. }
    split; [reflexivity|].
    pose proof (phase_count (downloadSample bytes) w (downloadRequest bytes)
                  iterations Hn) as Hc. cbv zeta in Hc.
    split; [exact Hc|]. split; [|reflexivity].
    rewrite Hc. pose proof (len_nonneg (omap (failed ParseFloat)
      (exchanges w (downloadRequest bytes) (Z.to_nat iterations)))). lia.
  - eexists _, _. split.
    { unfold measureUpload, mbind, St_bind.
      rewrite measureUpload_loop_spec by exact Hb. cbn [app]. reflexivity. }
    split; [reflexivity|].
    pose proof (phase_count (uploadSample bytes) w (uploadRequest bytes)
                  iterations Hn) as Hc. cbv zeta in Hc.
    split; [exact Hc|]. split; [|reflexivity].
    rewrite Hc. pose proof (len_nonneg (omap (failed ParseFloat)
      (exchanges w (uploadRequest bytes) (Z.to_nat iterations)))). lia.
Qed.

Lemma no_success_no_samples {B} (f : requestTiming -> B) (xs : list exchange) :
  (forall x, x ∈ xs -> succeeded ParseFloat x = None) ->
  omap (fun x => f <$> succeeded ParseFloat x) xs = [].
Proof.
  induction xs as [|x xs IH]; intros Hall; [reflexivity|].
  cbn [omap list_omap]. rewrite (Hall x) by apply list_elem_of_here.
  cbn. apply IH. intros y Hy. apply Hall. now apply list_elem_of_further.
Qed.

(** C1, on the code.  When every one of the 20 exchanges of the latency
    phase fails, measureLatency prints the 20 errors and then panics with
    an index out of range, [0] with length 0, at [measurements[0]]: it does
    not reach the statistics of the empty sample list. *)
Theorem measureLatency_panics_without_samples (w : World) :
  let xs := exchanges w (downloadRequest 1000) 20 in
  (forall x, x ∈ xs -> succeeded ParseFloat x = None) ->
  measureLatency ParseFloat w
  = (Panic (IndexOutOfRange 0 0),
     after w 20 (Printf_Error <$> omap (failed ParseFloat) xs)).
Proof.
  intros xs Hall. unfold measureLatency, mbind, St_bind.
  rewrite measureLatency_loop_spec. fold xs.
  rewrite (no_success_no_samples latencyOf xs Hall). reflexivity.
Qed.

(** A positive float divided by zero is the positive infinity. *)
Lemma div_by_zero_infinity (x : float) :
  (0 <? x)%float = true -> (x / 0)%float = infinity.
Proof.
  intros Hx. apply Prim2SF_inj. rewrite div_spec.
  rewrite FloatAxioms.ltb_spec in Hx. unfold SFltb in Hx.
  change (Prim2SF 0) with (S754_zero false) in *.
  change (Prim2SF infinity) with (S754_infinity false).
  destruct (Prim2SF x) as [s|[]| |[] m e]; cbn in *; congruence.
Qed.

Lemma uploadSample_without_server_timing (bytes : Z) (timing : requestTiming) :
  serverTiming timing = 0%float ->
  (0 <? Float64.of_int (Int64.mul bytes 8))%float = true ->
  uploadSample bytes timing = infinity.
Proof.
  intros Hzero Hbits. unfold uploadSample. rewrite Hzero.
  change (Float64.to_int (0 * Float64.of_int time.Millisecond)) with 0.
  unfold measureSpeed.
  change (time.Seconds 0 * 1e6)%float with 0%float.
  now apply div_by_zero_infinity.
Qed.

(** C3.  In an upload phase whose payload has a positive number of bits
    (as each of the three upload tiers has), an exchange that succeeds with
    serverTiming left at 0 gives the sample bits / 0 = +Inf, unguarded, and
    the phase returns it among its samples; on a network that answers every
    request without a Server-Timing header the whole run prints +Inf as the
    upload speed, the 90th percentile of the pooled upload samples. *)
Theorem upload_without_server_timing_is_infinite :
  (forall (bytes iterations : Z) (w : World) (i : nat) (x : exchange)
          (timing : requestTiming),
     0 <= bytes ->
     (0 <? Float64.of_int (Int64.mul bytes 8))%float = true ->
     exchanges w (uploadRequest bytes) (Z.to_nat iterations) !! i = Some x ->
     succeeded ParseFloat x = Some timing ->
     serverTiming timing = 0%float ->
     uploadSample bytes timing = infinity /\
     exists samples w',
       measureUpload ParseFloat bytes iterations w = (Ok (inl samples), w') /\
       infinity ∈ samples) /\
  Forall (fun bytes => (0 <? Float64.of_int (Int64.mul bytes 8))%float = true)
    [11000; 101000; 1001000] /\
  (let run := speedTest atof no_locations (scripted (fun _ => Response 30000000 "")) in
   run.1 = Ok None /\
   last (stdout run.2) = Some (PrintFloat "Upload speed" infinity 2 "Mbps")).
Proof.
  split; [|split].
  - intros bytes iterations w i x timing Hb Hbits Hx Hok Hzero.
    pose proof (uploadSample_without_server_timing bytes timing Hzero Hbits) as Hinf.
    split; [exact Hinf|].
    eexists _, _. split.
    { unfold measureUpload, mbind, St_bind.
      rewrite measureUpload_loop_spec by exact Hb. cbn [app]. reflexivity. }
    apply list_elem_of_omap. exists x. split.
    + eapply list_elem_of_lookup_2. exact Hx.
    + rewrite Hok. cbn [fmap option_fmap option_map]. now rewrite Hinf.
  - repeat constructor.
  - vm_compute. split; reflexivity.
Qed.

Lemma parseServerTiming_dur (timing : requestTiming) (header : string)
    (part0 part1 : string) (rest : list string) (val : float) :
  strings.Split header ";" = part0 :: part1 :: rest ->
  strings.HasPrefix (strings.TrimSpace part1) "dur=" = true ->
  ParseFloat (strings.from 4 (strings.TrimSpace part1)) = Some val ->
  parseServerTiming ParseFloat timing header = with_serverTiming timing val.
Proof.
  intros Hsplit Hdur Hval. unfold parseServerTiming.
  destruct (decide (header = "")) as [->|_]; [discriminate|].
  rewrite Hsplit, Hdur, Hval. reflexivity.
Qed.

Lemma parseServerTiming_no_separator (timing : requestTiming) (header : string) :
  strings.Count header ";" = 0%nat ->
  parseServerTiming ParseFloat timing header = timing.
Proof.
  intros Hc. unfold parseServerTiming.
  destruct (decide (header = "")); [reflexivity|].
  rewrite (Split_no_separator _ _ Hc). reflexivity.
Qed.

Lemma parseServerTiming_unparsed (timing : requestTiming) (header : string)
    (part0 part1 : string) (rest : list string) :
  strings.Split header ";" = part0 :: part1 :: rest ->
  ParseFloat (strings.from 4 (strings.TrimSpace part1)) = None ->
  parseServerTiming ParseFloat timing header = timing.
Proof.
  intros Hsplit Hnone. unfold parseServerTiming.
  destruct (decide (header = "")); [reflexivity|].
  rewrite Hsplit, Hnone. now destruct (strings.HasPrefix _ _).
Qed.

Lemma parseServerTiming_no_prefix (timing : requestTiming) (header : string)
    (part0 part1 : string) (rest : list string) :
  strings.Split header ";" = part0 :: part1 :: rest ->
  strings.HasPrefix (strings.TrimSpace part1) "dur=" = false ->
  parseServerTiming ParseFloat timing header = timing.
Proof.
  intros Hsplit Hdur. unfold parseServerTiming.
  destruct (decide (header = "")); [reflexivity|].
  now rewrite Hsplit, Hdur.
Qed.

(** C5.  When the exchange ends with a response, [request] returns a timing
    and no error, whatever the Server-Timing header holds.  The header is
    split on semicolons and the second field, trimmed, is looked at: when it
    starts with [dur=] and the rest parses as a float, that value is the
    timing's serverTiming, so [cf-edge; dur=12.5] gives 12.5.  When the
    header is absent (empty), has no semicolon, as [dur=abc], or the text
    after [dur=] does not parse, serverTiming stays 0.  It also stays 0
    when the second field does not start with [dur=], whatever follows its
    first four bytes: [cf-edge; foo=12.5] gives 0 although [12.5] parses. *)
Theorem Server_Timing_header (method hostname path data : string) (w : World)
    (now : Z) (header : string) :
  outcome (network w (served w) (newRequest method hostname path data))
  = Response now header ->
  exists timing,
    (request ParseFloat method hostname path data w).1 = Ok (inl timing) /\
    (forall part0 part1 rest val,
       strings.Split header ";" = part0 :: part1 :: rest ->
       strings.HasPrefix (strings.TrimSpace part1) "dur=" = true ->
       ParseFloat (strings.from 4 (strings.TrimSpace part1)) = Some val ->
       serverTiming timing = val) /\
    (header = "cf-edge; dur=12.5" -> ParseFloat "12.5" = Some 12.5%float ->
     serverTiming timing = 12.5%float) /\
    (header = "" -> serverTiming timing = 0%float) /\
    (strings.Count header ";" = 0%nat -> serverTiming timing = 0%float) /\
    (header = "dur=abc" -> serverTiming timing = 0%float) /\
    (forall part0 part1 rest,
       strings.Split header ";" = part0 :: part1 :: rest ->
       ParseFloat (strings.from 4 (strings.TrimSpace part1)) = None ->
       serverTiming timing = 0%float) /\
    (forall part0 part1 rest,
       strings.Split header ";" = part0 :: part1 :: rest ->
       strings.HasPrefix (strings.TrimSpace part1) "dur=" = false ->
       serverTiming timing = 0%float) /\
    (header = "cf-edge; foo=12.5" -> serverTiming timing = 0%float).
Proof.
  intros Hout. rewrite request_received. unfold received. rewrite Hout.
  eexists. split; [reflexivity|].
  split.
  { intros part0 part1 rest val Hsplit Hdur Hval.
    now rewrite (parseServerTiming_dur _ _ _ _ _ _ Hsplit Hdur Hval). }
  split.
  { intros -> H125.
    now rewrite (parseServerTiming_dur _ "cf-edge; dur=12.5" "cf-edge" " dur=12.5"
                   [] 12.5%float eq_refl eq_refl H125). }
  split; [intros ->; reflexivity|].
  split; [intros Hc; now rewrite parseServerTiming_no_separator|].
  split; [intros ->; reflexivity|].
  split.
  { intros part0 part1 rest Hsplit Hnone.
    now rewrite (parseServerTiming_unparsed _ _ _ _ _ Hsplit Hnone). }
  split.
  { intros part0 part1 rest Hsplit Hdur.
    now rewrite (parseServerTiming_no_prefix _ _ _ _ _ Hsplit Hdur). }
  intros ->.
  now rewrite (parseServerTiming_no_prefix _ "cf-edge; foo=12.5" "cf-edge"
                 " foo=12.5" [] eq_refl eq_refl).
Qed.

End PhaseProperties.

(** ** The trace payload *)

Lemma traceLine_lookup (result : gmap string string) (line key : string) :
  traceLine result line !! key
  = match binding key line with Some v => Some v | None => result !! key end.
Proof.
  unfold traceLine, binding.
  destruct (strings.Split line "=") as [|k [|v [|? ?]]]; try reflexivity.
  rewrite lookup_insert. destruct (decide (k = key)); reflexivity.
Qed.

Lemma traceLine_ignores (result : gmap string string) (line : string) :
  (forall k v, strings.Split line "=" <> [k; v]) -> traceLine result line = result.
Proof.
  intros Hno. unfold traceLine.
  destruct (strings.Split line "=") as [|k [|v [|? ?]]]; try reflexivity.
  now destruct (Hno k v).
Qed.

Lemma fold_traceLine_lookup (lines : list string) :
  forall (result : gmap string string) (key : string),
    fold_left traceLine lines result !! key
    = match last_value lines key with
      | Some v => Some v
      | None => result !! key
      end.
Proof.
  unfold last_value.
  induction lines as [|line lines IH]; intros result key; [reflexivity|].
  cbn [fold_left omap list_omap]. rewrite IH, traceLine_lookup.
  destruct (binding key line) as [v|]; [|reflexivity].
  rewrite last_cons. now destruct (last (omap (binding key) lines)).
Qed.

Lemma traceInfo_last_value (data key : string) :
  traceInfo data !! key = last_value (strings.Split data "010") key.
Proof.
  unfold traceInfo. rewrite fold_traceLine_lookup, lookup_empty.
  now destruct (last_value _ _).
Qed.

Lemma binding_Some (key line value : string) :
  binding key line = Some value <-> strings.Split line "=" = [key; value].
Proof.
  unfold binding.
  destruct (strings.Split line "=") as [|k [|v [|? ?]]];
    try (split; intros; discriminate).
  destruct (decide (k = key)) as [->|Hne]; split; intros H; try congruence.
Qed.

Lemma omap_nil_Forall {A B : Type} (f : A -> option B) (l : list A) :
  omap f l = [] <-> Forall (fun y => f y = None) l.
Proof.
  induction l as [|a l IH]; [split; [constructor|reflexivity]|].
  cbn [omap list_omap]. split.
  - intros H. destruct (f a) eqn:E; [discriminate|].
    constructor; [exact E|now apply IH].
  - intros H. apply Forall_cons in H as [-> H]. now apply IH.
Qed.

Lemma last_omap_Some {A B : Type} (f : A -> option B) (l : list A) (b : B) :
  last (omap f l) = Some b <->
  exists l1 x l2,
    l = l1 ++ x :: l2 /\ f x = Some b /\ Forall (fun y => f y = None) l2.
Proof.
  split.
  - induction l as [|a l IH] using rev_ind; [discriminate|].
    rewrite omap_app, last_app. cbn [omap list_omap].
    destruct (f a) as [y|] eqn:E.
    + cbn [last]. intros [= ->]. exists l, a, []. now rewrite E.
    + cbn [last]. intros H. destruct (IH H) as (l1 & x & l2 & -> & Hx & Hl2).
      exists l1, x, (l2 ++ [a]). rewrite <- app_assoc. cbn [app].
      split; [reflexivity|]. split; [exact Hx|].
      apply Forall_app. split; [exact Hl2|]. now constructor.
  - intros (l1 & x & l2 & -> & Hx & Hl2).
    rewrite omap_app, last_app. cbn [omap list_omap]. rewrite Hx.
    now rewrite (proj2 (omap_nil_Forall f l2) Hl2).
Qed.

(** C10, as the code has it.  The trace payload is read line by line into a
    map in which every key has the value of the last [key=value] line with
    that key: every entry of the map comes from a line that splits on [=]
    into exactly that key and that value; such a line gives its key its
    value whenever no later such line gives the same key another value, and
    its key is in the map either way; a line that does not split into
    exactly a key and a value changes nothing.  A line of the payload is
    in the map, that is, it splits into a key and a value and the map
    gives that key that value, if and only if it splits into a key and a
    value and the last line of the payload that splits into that key and
    some value has that same value. *)
Theorem traceInfo_last_line_wins (data : string) :
  (forall key, traceInfo data !! key = last_value (strings.Split data "010") key) /\
  (forall key value,
     traceInfo data !! key = Some value ->
     exists line,
       line ∈ strings.Split data "010" /\ strings.Split line "=" = [key; value]) /\
  (forall earlier line later key value,
     strings.Split data "010" = earlier ++ line :: later ->
     strings.Split line "=" = [key; value] ->
     (forall line' value',
        line' ∈ later -> strings.Split line' "=" = [key; value'] -> value' = value) ->
     traceInfo data !! key = Some value) /\
  (forall line key value,
     line ∈ strings.Split data "010" ->
     strings.Split line "=" = [key; value] ->
     is_Some (traceInfo data !! key)) /\
  (forall result line,
     (forall k v, strings.Split line "=" <> [k; v]) -> traceLine result line = result) /\
  (forall line,
     line ∈ strings.Split data "010" ->
     (exists key value,
        strings.Split line "=" = [key; value] /\
        traceInfo data !! key = Some value) <->
     (exists key value,
        strings.Split line "=" = [key; value] /\
        exists earlier final later,
          strings.Split data "010" = earlier ++ final :: later /\
          strings.Split final "=" = [key; value] /\
          forall line' value',
            line' ∈ later -> strings.Split line' "=" <> [key; value'])).
Proof.
  split; [intros key; apply traceInfo_last_value|].
  split.
  { intros key value. rewrite traceInfo_last_value. unfold last_value.
    intros Hlast. apply last_Some_elem_of, list_elem_of_omap in Hlast
      as (line & Hin & Hb).
    exists line. split; [exact Hin|]. now apply binding_Some. }
  split.
  { intros earlier line later key value Hlines Hsplit Hlater.
    rewrite traceInfo_last_value, Hlines. unfold last_value.
    rewrite omap_app. cbn [omap list_omap].
    rewrite (proj2 (binding_Some key line value) Hsplit).
    rewrite last_app, last_cons.
    destruct (last (omap (binding key) later)) as [v|] eqn:E; [|reflexivity].
    apply last_Some_elem_of, list_elem_of_omap in E as (line' & Hin & Hb).
    apply binding_Some in Hb. now rewrite (Hlater line' v Hin Hb). }
  split.
  { intros line key value Hin Hsplit.
    rewrite traceInfo_last_value. unfold last_value.
    apply last_is_Some. intros Hnil.
    assert (Hv : value ∈ omap (binding key) (strings.Split data "010")).
    { apply list_elem_of_omap. exists line. split; [exact Hin|].
      now apply binding_Some. }
    rewrite Hnil in Hv. now apply not_elem_of_nil in Hv. }
  split; [intros result line; apply traceLine_ignores|].
  intros line _.
  split; intros (key & value & Hsplit & H); exists key, value;
    (split; [exact Hsplit|]).
  - rewrite traceInfo_last_value in H. unfold last_value in H.
    apply last_omap_Some in H as (earlier & final & later & Hlines & Hb & Hnone).
    exists earlier, final, later. split; [exact Hlines|].
    split; [now apply binding_Some|].
    intros line' value' Hin Hsplit'.
    rewrite Forall_forall in Hnone. specialize (Hnone line' Hin).
    apply binding_Some in Hsplit'. congruence.
  - destruct H as (earlier & final & later & Hlines & Hfinal & Hnone).
    rewrite traceInfo_last_value. unfold last_value.
    apply last_omap_Some. exists earlier, final, later.
    split; [exact Hlines|]. split; [now apply binding_Some|].
    apply Forall_forall. intros line' Hin.
    destruct (binding key line') as [value'|] eqn:E; [|reflexivity].
    apply binding_Some in E. now destruct (Hnone line' value' Hin).
Qed.

(** C10, as it was stated, fails when a key comes twice: [a=1] is a line of
    the payload and splits into the key [a] and the value [1], but the map
    gives [a] the value [2] of the later line. *)
Lemma trace_duplicate_key :
  "a=1" ∈ strings.Split "a=1
a=2" "010" /\
  strings.Split "a=1" "=" = ["a"; "1"] /\
  traceInfo "a=1
a=2" !! "a" = Some "2" /\
  traceInfo "a=1
a=2" !! "a" <> Some "1".
Proof.
  split; [apply list_elem_of_here|].
  split; [reflexivity|].
  split; [vm_compute; reflexivity|].
  vm_compute. discriminate.
Qed.

(** ** Slices in memory: the caller's array is left alone *)

Lemma write_lookup_ne (s : Mem.slice) (vs : list float) (h : Mem.store) (l : nat) :
  l <> Mem.Data s -> Mem.write s vs h !! l = h !! l.
Proof.
  intros Hne. unfold Mem.write.
  destruct (h !! Mem.Data s); [|reflexivity].
  now rewrite lookup_insert_ne.
Qed.

Lemma fresh_unallocated (h : Mem.store) : h !! fresh (dom h) = None.
Proof. apply not_elem_of_dom, is_fresh. Qed.

Lemma elements_length (h : Mem.store) (s : Mem.slice) :
  Mem.valid h s -> length (Mem.elements h s) = Mem.Len s.
Proof.
  intros (arr & Harr & Hlen). unfold Mem.elements. rewrite Harr. cbn.
  rewrite length_take, length_drop. lia.
Qed.

(** The sorted copy is a new array holding the sorted elements; every array
    that was there before is as it was. *)
Lemma sorted_copy_spec (values : Mem.slice) (h : Mem.store) :
  exists sorted h',
    Mem.sorted_copy values h = (Ok sorted, h') /\
    Mem.Len sorted = Mem.Len values /\
    (forall l arr, h !! l = Some arr -> h' !! l = Some arr) /\
    (Mem.valid h values ->
     Mem.elements h' sorted = sort_Float64s (Mem.elements h values)).
Proof.
  unfold Mem.sorted_copy, mbind, St_bind, Mem.make, Mem.copy, Mem.Float64s, mret, St_ret.
  cbn [fst snd]. rewrite Nat2Z.id.
  set (l0 := fresh (dom h)).
  set (sorted := {| Mem.Data := l0; Mem.Off := 0; Mem.Len := Mem.Len values |}).
  set (h1 := <[l0 := replicate (Mem.Len values) 0%float]> h).
  eexists _, _. split; [reflexivity|]. split; [reflexivity|]. split.
  - intros l arr Hl.
    assert (l <> l0) by (intros ->; unfold l0 in Hl; now rewrite fresh_unallocated in Hl).
    rewrite !write_lookup_ne by assumption.
    unfold h1. now rewrite lookup_insert_ne.
  - intros Hvalid. pose proof (elements_length h values Hvalid) as Hlen.
    assert (Hsame : Mem.elements h1 values = Mem.elements h values).
    { destruct Hvalid as (arr & Harr & _). unfold Mem.elements, h1.
      rewrite lookup_insert_ne; [reflexivity|].
      intros Heq. unfold l0 in Heq. rewrite <- Heq, fresh_unallocated in Harr.
      discriminate. }
    rewrite Hsame. cbn [Mem.Len sorted]. rewrite Nat.min_id.
    rewrite (take_ge (Mem.elements h values)) by lia.
    set (vs := Mem.elements h values) in *.
    assert (Hcopied :
      Mem.write sorted vs h1 = <[l0 := vs]> h1).
    { unfold Mem.write, sorted, h1. cbn [Mem.Data Mem.Off].
      rewrite lookup_insert_eq. cbn [take app Nat.add].
      rewrite drop_ge by (rewrite length_replicate; lia).
      now rewrite app_nil_r. }
    rewrite Hcopied.
    assert (Hshown : Mem.elements (<[l0 := vs]> h1) sorted = vs).
    { unfold Mem.elements, sorted. cbn [Mem.Data Mem.Off Mem.Len].
      rewrite lookup_insert_eq. cbn [default id]. rewrite drop_0.
      now rewrite take_ge by lia. }
    rewrite Hshown.
    unfold Mem.write, Mem.elements, sorted. cbn [Mem.Data Mem.Off Mem.Len].
    rewrite !lookup_insert_eq. cbn [take app Nat.add default id].
    rewrite drop_0.
    rewrite drop_ge by (rewrite sort_Float64s_length; lia).
    rewrite app_nil_r. apply take_ge. rewrite sort_Float64s_length. lia.
Qed.

Ltac run_tail :=
  repeat match goal with
    | |- context [match ?r with Ok _ => _ | Panic _ => _ end] => destruct r
    | |- context [if ?b then _ else _] => destruct b
    end.

(** [Median] and [Quartile] begin with the sorted copy. *)
Lemma Median_begins (values : Mem.slice) (h : Mem.store) :
  Mem.Median values h
  = if Z.of_nat (Mem.Len values) =? 0 then (Ok 0%float, h)
    else
      (sorted ← Mem.sorted_copy values;
       let mid := Z.quot (Z.of_nat (Mem.Len sorted)) 2 in
       if Z.rem (Z.of_nat (Mem.Len sorted)) 2 =? 0 then
         a ← Mem.at_index sorted (mid - 1);
         b ← Mem.at_index sorted mid;
         mret ((a + b) / 2)%float
       else Mem.at_index sorted mid) h.
Proof. unfold Mem.Median. destruct (_ =? 0); reflexivity. Qed.

Lemma Quartile_begins (values : Mem.slice) (q : float) (h : Mem.store) :
  Mem.Quartile values q h
  = if Z.of_nat (Mem.Len values) =? 0 then (Ok 0%float, h)
    else
      (sorted ← Mem.sorted_copy values;
       let pos :=
         Float64.to_int (Float64.of_int (Z.of_nat (Mem.Len sorted)) * q)%float in
       let pos :=
         if pos >=? Z.of_nat (Mem.Len sorted)
         then Z.of_nat (Mem.Len sorted) - 1 else pos in
       Mem.at_index sorted pos) h.
Proof. unfold Mem.Quartile. destruct (_ =? 0); reflexivity. Qed.

Lemma Median_in_memory (values : Mem.slice) (h : Mem.store) :
  (forall l arr, h !! l = Some arr -> (Mem.Median values h).2 !! l = Some arr) /\
  (Mem.valid h values ->
   (Mem.Median values h).1 = Median (Mem.elements h values)).
Proof.
  rewrite Median_begins. unfold Median.
  destruct (Z.of_nat (Mem.Len values) =? 0) eqn:E.
  - split; [intros l arr Hl; exact Hl|]. intros Hvalid.
    unfold len. rewrite (elements_length h values Hvalid), E. reflexivity.
  - destruct (sorted_copy_spec values h)
      as (sorted & h' & Hrun & Hlen & Hframe & Hsorted).
    unfold mbind, St_bind, Mem.at_index, mret, St_ret. rewrite Hrun.
    cbv beta iota zeta. rewrite Hlen. split.
    + intros l arr Hl. apply Hframe in Hl. run_tail; exact Hl.
    + intros Hvalid. rewrite len_sort_Float64s. unfold len.
      rewrite (elements_length h values Hvalid), E.
      destruct (Z.rem (Z.of_nat (Mem.Len values)) 2 =? 0); cbv beta;
        rewrite (Hsorted Hvalid); unfold result_bind; run_tail; reflexivity.
Qed.

Lemma Quartile_in_memory (values : Mem.slice) (q : float) (h : Mem.store) :
  (forall l arr, h !! l = Some arr -> (Mem.Quartile values q h).2 !! l = Some arr) /\
  (Mem.valid h values ->
   (Mem.Quartile values q h).1 = Quartile (Mem.elements h values) q).
Proof.
  rewrite Quartile_begins. unfold Quartile.
  destruct (Z.of_nat (Mem.Len values) =? 0) eqn:E.
  - split; [intros l arr Hl; exact Hl|]. intros Hvalid.
    unfold len. rewrite (elements_length h values Hvalid), E. reflexivity.
  - destruct (sorted_copy_spec values h)
      as (sorted & h' & Hrun & Hlen & Hframe & Hsorted).
    unfold mbind, St_bind, Mem.at_index. rewrite Hrun.
    cbv beta iota zeta. rewrite Hlen. split.
    + intros l arr Hl. apply Hframe in Hl. exact Hl.
    + intros Hvalid. rewrite len_sort_Float64s. unfold len.
      rewrite (elements_length h values Hvalid), E, (Hsorted Hvalid).
      reflexivity.
Qed.

(** C9.  For every slice and every store, Median and Quartile leave every
    array that was allocated before the call as it was, so the caller's
    sequence shows the same elements in the same order after the call; the
    sorting is done in an array of their own, and what they return is what
    the functions on plain lists return for the caller's elements. *)
Theorem Median_Quartile_leave_input (values : Mem.slice) (q : float) (h : Mem.store) :
  (forall l arr,
     h !! l = Some arr ->
     (Mem.Median values h).2 !! l = Some arr /\
     (Mem.Quartile values q h).2 !! l = Some arr) /\
  (Mem.valid h values ->
   Mem.elements (Mem.Median values h).2 values = Mem.elements h values /\
   Mem.elements (Mem.Quartile values q h).2 values = Mem.elements h values /\
   (Mem.Median values h).1 = Median (Mem.elements h values) /\
   (Mem.Quartile values q h).1 = Quartile (Mem.elements h values) q).
Proof.
  destruct (Median_in_memory values h) as [HMframe HMvalue].
  destruct (Quartile_in_memory values q h) as [HQframe HQvalue].
  split.
  - intros l arr Hl. split; [now apply HMframe|now apply HQframe].
  - intros Hvalid. pose proof Hvalid as (arr & Harr & _).
    split; [|split; [|split; [now apply HMvalue|now apply HQvalue]]].
    + unfold Mem.elements. now rewrite (HMframe _ _ Harr), Harr.
    + unfold Mem.elements. now rewrite (HQframe _ _ Harr), Harr.
Qed.

(** ** The theorems at concrete inputs *)

Lemma Median_middle_of_sorted_witness :
  exists m,
    sort_Float64s [3; 1; 2]%float !! 1%nat = Some m /\
    Median [3; 1; 2]%float = Ok m.
Proof.
  apply (proj1 (proj2 (proj2 (proj2 (Median_middle_of_sorted [3; 1; 2]%float))))
           1%nat).
  reflexivity.
Defined.

Lemma Jitter_is_sample_variance_witness :
  Jitter [2; 4; 9]%float = sample_variance [2; 4; 9]%float.
Proof.
  apply (proj1 (proj2 (Jitter_is_sample_variance [2; 4; 9]%float))).
  cbn. lia.
Defined.

Lemma phase_drops_failed_iterations_witness :
  exists samples w',
    measureDownload atof 101000 3 second_fails = (Ok (inl samples), w') /\
    len samples = 3 - 1 /\
    stdout w' = [Printf_Error "read: connection reset by peer"].
Proof.
  destruct (proj1 (phase_drops_failed_iterations atof 101000 3 second_fails
                     ltac:(lia)))
    as (samples & w' & Hrun & _ & Hcount & _ & Hout).
  exists samples, w'. split; [exact Hrun|]. split; [exact Hcount|exact Hout].
Defined.

Lemma measureLatency_panics_without_samples_witness :
  (measureLatency atof unreachable).1 = Panic (IndexOutOfRange 0 0).
Proof.
  rewrite (measureLatency_panics_without_samples atof unreachable).
  - reflexivity.
  - intros x Hx. apply list_elem_of_fmap in Hx as (i & -> & _). reflexivity.
Defined.

Lemma upload_without_server_timing_is_infinite_witness :
  exists samples w',
    measureUpload atof 11000 2 (scripted (fun _ => Response 30000000 ""))
    = (Ok (inl samples), w') /\
    infinity ∈ samples.
Proof.
  refine (proj2 (proj1 (upload_without_server_timing_is_infinite atof)
                   11000 2 (scripted (fun _ => Response 30000000 "")) 0%nat
                   (quiet_exchange (Response 30000000 ""))
                   {| started := 0; dnsLookup := 0; tcpHandshake := 0;
                      sslHandshake := 0; ttfb := 20000000; ended := 30000000;
                      serverTiming := 0%float |}
                   _ _ _ _ _)).
  - lia.
  - vm_compute. reflexivity.
  - reflexivity.
  - reflexivity.
  - reflexivity.
Defined.

Lemma Server_Timing_header_witness :
  (exists timing,
     (request atof "POST" "speed.cloudflare.com" "/__up" "0"
        (scripted (fun _ => Response 30000000 "cf-edge; dur=12.5"))).1
     = Ok (inl timing) /\
     serverTiming timing = 12.5%float) /\
  (exists timing,
     (request atof "POST" "speed.cloudflare.com" "/__up" "0"
        (scripted (fun _ => Response 30000000 "cf-edge; foo=12.5"))).1
     = Ok (inl timing) /\
     atof (strings.from 4 (strings.TrimSpace " foo=12.5")) = Some 12.5%float /\
     serverTiming timing = 0%float).
Proof.
  split.
  - destruct (Server_Timing_header atof "POST" "speed.cloudflare.com" "/__up" "0"
                (scripted (fun _ => Response 30000000 "cf-edge; dur=12.5"))
                30000000 "cf-edge; dur=12.5" eq_refl)
      as (timing & Hrun & _ & H125 & _).
    exists timing. split; [exact Hrun|].
    apply H125; [reflexivity|]. vm_compute. reflexivity.
  - destruct (Server_Timing_header atof "POST" "speed.cloudflare.com" "/__up" "0"
                (scripted (fun _ => Response 30000000 "cf-edge; foo=12.5"))
                30000000 "cf-edge; foo=12.5" eq_refl)
      as (timing & Hrun & _ & _ & _ & _ & _ & _ & Hprefix & _).
    exists timing. split; [exact Hrun|].
    split; [vm_compute; reflexivity|].
    now apply (Hprefix "cf-edge" " foo=12.5" []).
Defined.

Lemma Median_Quartile_leave_input_witness :
  Mem.elements
    (Mem.Median {| Mem.Data := 0; Mem.Off := 1; Mem.Len := 3 |}
       {[ 0%nat := [9; 3; 1; 2; 7]%float ]}).2
    {| Mem.Data := 0; Mem.Off := 1; Mem.Len := 3 |}
  = [3; 1; 2]%float.
Proof.
  refine (proj1 (proj2 (Median_Quartile_leave_input
                          {| Mem.Data := 0; Mem.Off := 1; Mem.Len := 3 |}
                          0.5%float {[ 0%nat := [9; 3; 1; 2; 7]%float ]}) _)).
  exists [9; 3; 1; 2; 7]%float. split; [reflexivity|]. cbn. lia.
Defined.

Lemma traceInfo_last_line_wins_witness :
  is_Some (traceInfo trace_payload !! "colo") /\
  exists key value,
    strings.Split "a=1" "=" = [key; value] /\
    traceInfo "a=1
a=2
a=1" !! key = Some value.
Proof.
  split.
  - apply (proj1 (proj2 (proj2 (proj2 (traceInfo_last_line_wins trace_payload))))
             "colo=SJC" "colo" "SJC").
    + vm_compute. do 3 apply list_elem_of_further. apply list_elem_of_here.
    + reflexivity.
  - apply (proj2 (proj2 (proj2 (proj2 (proj2 (traceInfo_last_line_wins "a=1
a=2
a=1"))))) "a=1").
    + vm_compute. apply list_elem_of_here.
    + exists "a", "1". split; [reflexivity|].
      exists ["a=1"; "a=2"], "a=1", []. split; [reflexivity|].
      split; [reflexivity|].
      intros line' value' Hin. now apply not_elem_of_nil in Hin.
Defined.

(** * More of the program *)

(** ** The statistics never read out of range from above *)

Lemma Median_total (values : list float) : exists m, Median values = Ok m.
Proof.
  destruct (Nat.Even_or_Odd (length values)) as [[k Hk]|[k Hk]].
  - destruct k as [|k].
    + destruct values; [|discriminate]. now exists 0%float.
    + destruct (Median_even values k) as (a & b & _ & _ & H); [lia|]. eauto.
  - destruct (Median_odd values k) as (m & _ & H); [lia|]. eauto.
Qed.

Lemma sorted_elem_of (values : list float) (i : nat) (v : float) :
  sort_Float64s values !! i = Some v -> v ∈ values.
Proof.
  intros Hv. apply list_elem_of_In.
  apply (Permutation_in _ (Permutation_sym (sort_Float64s_Permutation values))).
  apply list_elem_of_In. eapply list_elem_of_lookup_2, Hv.
Qed.

(** X1.  Median returns for every list, without a panic: its indexes are
    always within the sorted copy.  For a list of odd length what it returns
    is one of the samples. *)
Theorem Median_never_panics (values : list float) :
  (exists m, Median values = Ok m) /\
  (forall m, Nat.Odd (length values) -> Median values = Ok m -> m ∈ values).
Proof.
  split; [apply Median_total|].
  intros m [k Hk] Hm.
  destruct (Median_odd values k) as (m' & Hlook & Hm'); [lia|].
  rewrite Hm in Hm'. injection Hm' as ->. eapply sorted_elem_of, Hlook.
Qed.

Lemma Median_never_panics_witness : 7%float ∈ [9; 7; 1]%float.
Proof.
  apply (proj2 (Median_never_panics [9; 7; 1]%float) 7%float).
  - exists 1%nat. reflexivity.
  - vm_compute. reflexivity.
Defined.

(** X2.  On a non-empty list Quartile panics exactly when the position it
    computes, [int(float64(n) * q)], is negative, and then with that index.
    Whenever the position is not negative Quartile returns the element of
    the sorted copy at that position, held at n-1 when the position is n or
    more, and this is one of the samples. *)
Theorem Quartile_panics_only_below_zero (values : list float) (q : float) :
  values <> [] ->
  let pos := Float64.to_int (Float64.of_int (len values) * q)%float in
  (pos < 0 -> Quartile values q = Panic (IndexOutOfRange pos (len values))) /\
  (0 <= pos ->
   exists v,
     sort_Float64s values !! Z.to_nat (Z.min pos (len values - 1)) = Some v /\
     v ∈ values /\ Quartile values q = Ok v).
Proof.
  intros Hne pos.
  assert (Hn : 0 < len values).
  { destruct values; [congruence|]. unfold len. cbn [length]. lia. }
  unfold Quartile. rewrite len_sort_Float64s. fold pos.
  replace (len values =? 0) with false by (symmetry; apply Z.eqb_neq; lia).
  split; intros Hpos.
  - replace (pos >=? len values) with false
      by (symmetry; rewrite Z.geb_leb; apply Z.leb_gt; lia).
    rewrite index_out_of_range; rewrite len_sort_Float64s; [reflexivity|lia].
  - replace (if pos >=? len values then len values - 1 else pos)
      with (Z.min pos (len values - 1)).
    2:{ destruct (pos >=? len values) eqn:E.
        - apply Z.geb_le in E. lia.
        - rewrite Z.geb_leb in E. apply Z.leb_gt in E. lia. }
    destruct (index_in_range (sort_Float64s values)
                (Z.min pos (len values - 1))) as (v & Hv & Hi).
    { rewrite len_sort_Float64s. lia. }
    exists v. split; [exact Hv|]. split; [eapply sorted_elem_of, Hv|exact Hi].
Qed.

Lemma Quartile_panics_only_below_zero_witness :
  sort_Float64s [8; 4]%float !! 1%nat = Some 8%float /\
  Quartile [8; 4]%float 7%float = Ok 8%float.
Proof.
  destruct (proj2 (Quartile_panics_only_below_zero [8; 4]%float 7%float
                     ltac:(discriminate)))
    as (v & Hv & _ & Hq).
  - vm_compute. discriminate.
  - vm_compute in Hv. injection Hv as <-. split; [reflexivity|exact Hq].
Defined.

(** ** The smallest and the largest latency *)

Lemma ltb_rank (a b : float) :
  (a <? b)%float = true <->
  Float64.is_nan a = false /\ Float64.is_nan b = false /\
  ~ lex_le (rank (Prim2SF b)) (rank (Prim2SF a)).
Proof.
  rewrite !is_nan_spec, FloatAxioms.ltb_spec. unfold SFltb.
  destruct (Prim2SF a) as [[]|[]| |[] m1 e1], (Prim2SF b) as [[]|[]| |[] m2 e2];
    cbn; try (split; [discriminate | intros (? & ? & ?); try discriminate; lia]);
    try (split; [intros _; repeat split; lia | reflexivity]);
    change (PosDef.Pos.compare_cont Eq m1 m2) with (Pos.compare m1 m2);
    destruct (Z.compare_spec e1 e2); destruct (Pos.compare_spec m1 m2);
    cbn; split; try discriminate; try reflexivity;
    try (intros _; repeat split; lia);
    intros (_ & _ & Hnot); exfalso; apply Hnot; lia.
Qed.

Lemma ltb_irrefl (a : float) : (a <? a)%float = false.
Proof.
  destruct (a <? a)%float eqn:E; [|reflexivity].
  apply ltb_rank in E as (_ & _ & H). exfalso. apply H.
  destruct (rank (Prim2SF a)) as [[a1 a2] a3]. cbn. lia.
Qed.

Lemma ltb_trans (a b c : float) :
  (a <? b)%float = true -> (b <? c)%float = true -> (a <? c)%float = true.
Proof.
  rewrite !ltb_rank. intros (Ha & _ & Hab) (_ & Hc & Hbc).
  repeat split; try assumption.
  destruct (rank (Prim2SF a)) as [[a1 a2] a3],
           (rank (Prim2SF b)) as [[b1 b2] b3],
           (rank (Prim2SF c)) as [[c1 c2] c3].
  unfold lex_le in *. lia.
Qed.

Lemma not_ltb_below (x m m' : float) :
  (x <? m)%float = false -> m' = m \/ (m' <? m)%float = true ->
  (x <? m')%float = false.
Proof.
  intros Hx [->|Hm]; [exact Hx|].
  destruct (x <? m')%float eqn:E; [|reflexivity].
  now rewrite (ltb_trans _ _ _ E Hm) in Hx.
Qed.

Lemma not_ltb_above (x m m' : float) :
  (m <? x)%float = false -> m' = m \/ (m <? m')%float = true ->
  (m' <? x)%float = false.
Proof.
  intros Hx [->|Hm]; [exact Hx|].
  destruct (m' <? x)%float eqn:E; [|reflexivity].
  now rewrite (ltb_trans _ _ _ Hm E) in Hx.
Qed.

Lemma min_max_cons (x : float) (l : list float) (min max : float) :
  min_max (x :: l) min max
  = min_max l (if (x <? min)%float then x else min)
              (if (max <? x)%float then x else max).
Proof. reflexivity. Qed.

Lemma min_max_spec (l : list float) :
  forall min max,
    let r := min_max l min max in
    (r.1 = min \/ (r.1 <? min)%float = true) /\
    (r.2 = max \/ (max <? r.2)%float = true) /\
    r.1 ∈ min :: l /\ r.2 ∈ max :: l /\
    forall v, v ∈ l -> (v <? r.1)%float = false /\ (r.2 <? v)%float = false.
Proof.
  induction l as [|x l IH]; intros min max; cbv zeta.
  - cbn. split; [now left|]. split; [now left|].
    split; [apply list_elem_of_here|]. split; [apply list_elem_of_here|].
    intros v Hv. now apply not_elem_of_nil in Hv.
  - rewrite min_max_cons.
    specialize (IH (if (x <? min)%float then x else min)
                   (if (max <? x)%float then x else max)).
    cbv zeta in IH. destruct IH as (Hmin & Hmax & Hin1 & Hin2 & Hall).
    set (r := min_max l _ _) in *.
    assert (Hx1 : (x <? (if (x <? min)%float then x else min))%float = false).
    { destruct (x <? min)%float eqn:E; [apply ltb_irrefl|exact E]. }
    assert (Hx2 : ((if (max <? x)%float then x else max) <? x)%float = false).
    { destruct (max <? x)%float eqn:E; [apply ltb_irrefl|exact E]. }
    split; [|split; [|split; [|split]]].
    + destruct (x <? min)%float eqn:E; [|exact Hmin].
      right. destruct Hmin as [->|H]; [exact E|exact (ltb_trans _ _ _ H E)].
    + destruct (max <? x)%float eqn:E; [|exact Hmax].
      right. destruct Hmax as [->|H]; [exact E|exact (ltb_trans _ _ _ E H)].
    + apply elem_of_cons in Hin1 as [->|Hin1].
      * destruct (x <? min)%float; [apply list_elem_of_further|];
          apply list_elem_of_here.
      * now do 2 apply list_elem_of_further.
    + apply elem_of_cons in Hin2 as [->|Hin2].
      * destruct (max <? x)%float; [apply list_elem_of_further|];
          apply list_elem_of_here.
      * now do 2 apply list_elem_of_further.
    + intros v Hv. apply elem_of_cons in Hv as [->|Hv]; [|now apply Hall].
      split.
      * exact (not_ltb_below _ _ _ Hx1 Hmin).
      * exact (not_ltb_above _ _ _ Hx2 Hmax).
Qed.

(** X3.  The second loop of measureLatency, started as the code starts it
    from the first sample, ends with a smallest and a largest value that
    are both samples, and no sample is below the smallest or above the
    largest. *)
Theorem latency_min_max_bound (measurements : list float) (first : float) :
  head measurements = Some first ->
  let r := min_max measurements first first in
  r.1 ∈ measurements /\ r.2 ∈ measurements /\
  forall v, v ∈ measurements ->
    (v <? r.1)%float = false /\ (r.2 <? v)%float = false.
Proof.
  intros Hhead. destruct measurements as [|x l]; [discriminate|].
  injection Hhead as ->.
  pose proof (min_max_spec (first :: l) first first) as H. cbv zeta in H |- *.
  destruct H as (_ & _ & Hin1 & Hin2 & Hall).
  repeat split; try (now apply Hall).
  - apply elem_of_cons in Hin1 as [->|Hin1]; [apply list_elem_of_here|exact Hin1].
  - apply elem_of_cons in Hin2 as [->|Hin2]; [apply list_elem_of_here|exact Hin2].
Qed.

Lemma latency_min_max_bound_witness :
  (min_max [3; 1; 2]%float 3 3).1 ∈ [3; 1; 2]%float.
Proof.
  apply (proj1 (latency_min_max_bound [3; 1; 2]%float 3%float eq_refl)).
Defined.

(** ** The trace payload, line by line *)

Lemma Split_nonempty (s : string) (sep : ascii) : strings.Split s sep <> [].
Proof.
  intros H. pose proof (Split_length s sep) as Hl. rewrite H in Hl. discriminate.
Qed.

(** Putting the pieces together again gives the string back. *)
Lemma Split_joined (s : string) (sep : ascii) :
  joined (strings.Split s sep) sep = s.
Proof.
  induction s as [|c s IH]; [reflexivity|].
  cbn [strings.Split]. pose proof (Split_nonempty s sep) as Hne.
  destruct (strings.Split s sep) as [|piece pieces]; [congruence|].
  destruct (decide (c = sep)) as [->|Hc].
  - change (joined ("" :: piece :: pieces) sep)
      with (String sep (joined (piece :: pieces) sep)).
    now rewrite IH.
  - destruct pieces as [|piece' pieces].
    + cbn in IH |- *. now rewrite IH.
    + rewrite <- IH. reflexivity.
Qed.

Lemma Split_pieces_no_separator (s : string) (sep : ascii) (piece : string) :
  piece ∈ strings.Split s sep -> strings.Count piece sep = 0%nat.
Proof.
  revert piece. induction s as [|c s IH]; intros piece Hin.
  - apply list_elem_of_singleton in Hin as ->. reflexivity.
  - cbn [strings.Split] in Hin. pose proof (Split_nonempty s sep) as Hne.
    destruct (strings.Split s sep) as [|p ps]; [congruence|].
    destruct (decide (c = sep)) as [->|Hc].
    + apply elem_of_cons in Hin as [->|Hin]; [reflexivity|now apply IH].
    + apply elem_of_cons in Hin as [->|Hin].
      * cbn [strings.Count]. destruct (decide (c = sep)); [congruence|].
        apply IH, list_elem_of_here.
      * apply IH. now apply list_elem_of_further.
Qed.

Lemma Split_pieces_without (s : string) (sep c : ascii) (piece : string) :
  strings.Count s c = 0%nat ->
  piece ∈ strings.Split s sep -> strings.Count piece c = 0%nat.
Proof.
  revert piece. induction s as [|a s IH]; intros piece Hc Hin.
  - apply list_elem_of_singleton in Hin as ->. reflexivity.
  - cbn [strings.Count] in Hc. destruct (decide (a = c)) as [|Hac]; [discriminate|].
    cbn [strings.Split] in Hin. pose proof (Split_nonempty s sep) as Hne.
    destruct (strings.Split s sep) as [|p ps]; [congruence|].
    destruct (decide (a = sep)) as [->|Has].
    + apply elem_of_cons in Hin as [->|Hin]; [reflexivity|now apply IH].
    + apply elem_of_cons in Hin as [->|Hin].
      * cbn [strings.Count]. destruct (decide (a = c)); [congruence|].
        apply IH; [exact Hc|apply list_elem_of_here].
      * apply IH; [exact Hc|now apply list_elem_of_further].
Qed.

(** X11.  No key and no value of the trace map holds an equals sign or a
    line feed. *)
Theorem traceInfo_keys_and_values_clean (data key value : string) :
  traceInfo data !! key = Some value ->
  strings.Count key "=" = 0%nat /\ strings.Count value "=" = 0%nat /\
  strings.Count key "010" = 0%nat /\ strings.Count value "010" = 0%nat.
Proof.
  rewrite traceInfo_last_value. unfold last_value. intros Hlast.
  apply last_Some_elem_of, list_elem_of_omap in Hlast as (line & Hline & Hb).
  apply binding_Some in Hb.
  assert (Hk : key ∈ strings.Split line "=") by (rewrite Hb; apply list_elem_of_here).
  assert (Hv : value ∈ strings.Split line "=")
    by (rewrite Hb; apply list_elem_of_further, list_elem_of_here).
  pose proof (Split_pieces_no_separator _ _ _ Hline) as Hnl.
  repeat split.
  - exact (Split_pieces_no_separator _ _ _ Hk).
  - exact (Split_pieces_no_separator _ _ _ Hv).
  - exact (Split_pieces_without _ _ _ _ Hnl Hk).
  - exact (Split_pieces_without _ _ _ _ Hnl Hv).
Qed.

(** X12.  A line of the trace payload is taken exactly when it holds one
    equals sign: it is then the key, the sign and the value, and the map
    gets that key with that value; a line with no equals sign, or with two
    or more (a value that itself holds one), leaves the map as it is. *)
Theorem traceLine_takes_one_equals_sign (result : gmap string string) (line : string) :
  (strings.Count line "=" = 1%nat ->
   exists key value,
     line = key +:+ String "=" value /\
     traceLine result line = <[key := value]> result) /\
  (strings.Count line "=" <> 1%nat -> traceLine result line = result).
Proof.
  pose proof (Split_length line "=") as Hlen.
  pose proof (Split_joined line "=") as Hjoin.
  unfold traceLine. split; intros Hc.
  - rewrite Hc in Hlen.
    destruct (strings.Split line "=") as [|key [|value [|? ?]]]; try discriminate.
    exists key, value. split; [now rewrite <- Hjoin|reflexivity].
  - destruct (strings.Split line "=") as [|key [|value [|? ?]]]; try reflexivity.
    cbn in Hlen. congruence.
Qed.

(** ** The phases and the world *)

Section MoreProperties.

Variable ParseFloat : string -> option float.
Variable Unmarshal : string -> list (string * string) + error.

Lemma measureLatency_world (w : World) :
  (measureLatency ParseFloat w).2
  = after w 20 (Printf_Error <$> omap (failed ParseFloat)
                                   (exchanges w (downloadRequest 1000) 20)).
Proof.
  unfold measureLatency, mbind, St_bind, lift.
  rewrite measureLatency_loop_spec. cbn [app].
  destruct (index _ 0) as [first|]; [|reflexivity].
  destruct (min_max _ first first) as [min max].
  destruct (Median _); reflexivity.
Qed.

(** X4.  When at least one of its 20 exchanges succeeds, measureLatency
    returns, with a nil error and without a panic, the five numbers
    smallest, largest, average, median and jitter of the samples of the
    exchanges that succeeded, having printed one error line per exchange
    that failed. *)
Theorem measureLatency_returns_five (w : World) (first : float) :
  let xs := exchanges w (downloadRequest 1000) 20 in
  let samples := omap (fun x => latencyOf <$> succeeded ParseFloat x) xs in
  head samples = Some first ->
  exists median,
    Median samples = Ok median /\
    measureLatency ParseFloat w
    = (Ok (inl [ (min_max samples first first).1;
                 (min_max samples first first).2;
                 Average samples; median; Jitter samples ]),
       after w 20 (Printf_Error <$> omap (failed ParseFloat) xs)).
Proof.
  intros xs samples Hhead.
  destruct (Median_total samples) as [median Hmedian].
  exists median. split; [exact Hmedian|].
  unfold measureLatency, mbind, St_bind, lift.
  rewrite measureLatency_loop_spec. cbn [app]. fold xs. fold samples.
  destruct samples as [|s0 rest] eqn:Es; [discriminate|].
  injection Hhead as ->.
  change (index (first :: rest) 0) with (@Ok float first).
  cbv beta iota zeta.
  destruct (min_max (first :: rest) first first) as [min max].
  rewrite Hmedian. reflexivity.
Qed.

(** X5.  A phase makes exactly one timed request per iteration, whatever
    fails: after measureDownload or measureUpload (payload size not
    negative) the count of requests served has grown by the number of
    iterations, and after measureLatency by 20, also when it panics. *)
Theorem phase_requests_once_per_iteration (bytes iterations : Z) (w : World) :
  served (measureDownload ParseFloat bytes iterations w).2
  = (Z.to_nat iterations + served w)%nat /\
  (0 <= bytes ->
   served (measureUpload ParseFloat bytes iterations w).2
   = (Z.to_nat iterations + served w)%nat) /\
  served (measureLatency ParseFloat w).2 = (20 + served w)%nat.
Proof.
  split; [|split].
  - unfold measureDownload, mbind, St_bind.
    rewrite measureDownload_loop_spec. reflexivity.
  - intros Hb. unfold measureUpload, mbind, St_bind.
    rewrite measureUpload_loop_spec by exact Hb. reflexivity.
  - rewrite measureLatency_world. reflexivity.
Qed.

(** X6.  With an iteration count that is zero or negative, measureDownload
    and measureUpload return the empty sample list and a nil error and
    leave the world as it is: no request, no output, and for an upload no
    panic even when the payload size is negative. *)
Theorem phase_without_iterations (bytes iterations : Z) (w : World) :
  iterations <= 0 ->
  measureDownload ParseFloat bytes iterations w = (Ok (inl []), w) /\
  measureUpload ParseFloat bytes iterations w = (Ok (inl []), w).
Proof.
  intros Hn. unfold measureDownload, measureUpload.
  replace (Z.to_nat iterations) with 0%nat by lia. split; reflexivity.
Qed.

(** X7.  With a negative payload size and at least one iteration,
    measureUpload panics in [strings.Repeat] (negative count) before any
    request is made or anything is printed. *)
Theorem measureUpload_negative_size_panics (bytes iterations : Z) (w : World) :
  bytes < 0 -> 0 < iterations ->
  measureUpload ParseFloat bytes iterations w = (Panic NegativeRepeatCount, w).
Proof.
  intros Hb Hn. unfold measureUpload, mbind, St_bind.
  destruct (Z.to_nat iterations) as [|n] eqn:E; [lia|].
  cbn [measureUpload_loop]. unfold mbind, St_bind.
  rewrite upload_negative by exact Hb. reflexivity.
Qed.

Lemma repeat_zero_S (n : nat) :
  strings.repeat_string "0" (S n) = String "0" (strings.repeat_string "0" n).
Proof. reflexivity. Qed.

Lemma repeat_zero_length (n : nat) :
  String.length (strings.repeat_string "0" n) = n.
Proof.
  induction n as [|n IH]; [reflexivity|].
  rewrite repeat_zero_S. cbn [String.length]. now rewrite IH.
Qed.

Lemma repeat_zero_count (n : nat) :
  strings.Count (strings.repeat_string "0" n) "0" = n.
Proof.
  induction n as [|n IH]; [reflexivity|].
  rewrite repeat_zero_S. cbn [strings.Count].
  destruct (decide _) as [_|Hne]; [now rewrite IH|now destruct Hne].
Qed.

(** X8.  For a payload size that is not negative, upload sends one POST to
    https://speed.cloudflare.com/__up whose body is exactly that many
    bytes, every one of them the character 0, with the Content-Length
    header set to the size when the size is positive and left unset when
    it is zero; download sends one GET with no body and no Content-Length,
    the size in decimal at the end of the URL. *)
Theorem upload_body_has_requested_size (bytes : Z) (w : World) :
  0 <= bytes ->
  (exists req,
     upload ParseFloat bytes w
     = (Ok (received ParseFloat (network w (served w) req)), after w 1 []) /\
     Method req = "POST" /\
     URL req = "https://speed.cloudflare.com/__up" /\
     Z.of_nat (String.length (Body req)) = bytes /\
     strings.Count (Body req) "0" = String.length (Body req) /\
     ContentLength req = (if 0 <? bytes then Some bytes else None)) /\
  (exists req,
     download ParseFloat bytes w
     = (Ok (received ParseFloat (network w (served w) req)), after w 1 []) /\
     Method req = "GET" /\
     URL req = "https://speed.cloudflare.com/__down?bytes=" +:+ pretty bytes /\
     Body req = "" /\
     ContentLength req = None).
Proof.
  intros Hb. split.
  - exists (uploadRequest bytes).
    split; [now apply upload_received|].
    unfold uploadRequest, newRequest. cbn [Method URL Body ContentLength].
    rewrite repeat_zero_length, repeat_zero_count, Z2Nat.id by exact Hb.
    repeat split.
  - exists (downloadRequest bytes).
    split; [apply download_received|]. repeat split.
Qed.

(** X9.  Whatever happens, request plays exactly one exchange and prints
    nothing.  When the exchange ends in an error (of NewRequest, of Do, or
    of reading the body) request returns that error and no timing; when it
    ends with a response it returns a timing whose start, first-byte and
    end times are those of the exchange, a hook that did not fire leaving
    the zero time: the Server-Timing header touches serverTiming only. *)
Theorem request_plays_one_exchange (method hostname path data : string) (w : World) :
  let x := network w (served w) (newRequest method hostname path data) in
  (request ParseFloat method hostname path data w).2 = after w 1 [] /\
  (forall err,
     outcome x = NewRequestError err \/ outcome x = DoError err \/
     outcome x = CopyError err ->
     (request ParseFloat method hostname path data w).1 = Ok (inr err)) /\
  (forall now header,
     outcome x = Response now header ->
     exists timing,
       (request ParseFloat method hostname path data w).1 = Ok (inl timing) /\
       started timing = now_started x /\
       dnsLookup timing = default 0 (DNSDone x) /\
       tcpHandshake timing = default 0 (ConnectDone x) /\
       sslHandshake timing = default 0 (TLSHandshakeDone x) /\
       ttfb timing = default 0 (GotFirstResponseByte x) /\
       ended timing = now).
Proof.
  intros x. rewrite request_received. fold x. cbn [fst snd].
  split; [reflexivity|]. split.
  - intros err [H|[H|H]]; unfold received; now rewrite H.
  - intros now header H. unfold received. rewrite H.
    eexists. split; [reflexivity|].
    unfold parseServerTiming.
    destruct (decide (header = "")); [now repeat split|].
    destruct (strings.Split header ";") as [|part0 [|part1 rest]];
      [now repeat split..|].
    destruct (strings.HasPrefix _ _); [|now repeat split].
    destruct (ParseFloat _); now repeat split.
Qed.

(** X10.  Only the second semicolon field of the Server-Timing header is
    read: when that field, trimmed, does not start with [dur=], serverTiming
    stays 0 and no error is returned, also when the first field or a later
    one carries a duration, and [Dur=] in capitals is not taken. *)
Theorem Server_Timing_second_field_only (method hostname path data : string)
    (w : World) (now : Z) (header part0 part1 : string) (rest : list string) :
  outcome (network w (served w) (newRequest method hostname path data))
  = Response now header ->
  strings.Split header ";" = part0 :: part1 :: rest ->
  strings.HasPrefix (strings.TrimSpace part1) "dur=" = false ->
  exists timing,
    (request ParseFloat method hostname path data w).1 = Ok (inl timing) /\
    serverTiming timing = 0%float.
Proof.
  intros Hout Hsplit Hdur. rewrite request_received. unfold received.
  rewrite Hout. eexists. split; [reflexivity|].
  unfold parseServerTiming.
  destruct (decide (header = "")); [reflexivity|].
  now rewrite Hsplit, Hdur.
Qed.

Lemma locationTable_fold (locations : list (string * string)) :
  forall (result : gmap string string) (iata : string),
    fold_left (fun result loc => <[loc.1 := loc.2]> result) locations result
      !! iata
    = match last_city locations iata with
      | Some city => Some city
      | None => result !! iata
      end.
Proof.
  unfold last_city.
  induction locations as [|[code city] locations IH]; intros result iata;
    [reflexivity|].
  cbn [fold_left omap list_omap fst snd]. rewrite IH, lookup_insert.
  destruct (decide (code = iata)); [|reflexivity].
  rewrite last_cons. now destruct (last _).
Qed.

Lemma locationTable_lookup (locations : list (string * string)) (iata : string) :
  locationTable locations !! iata = last_city locations iata.
Proof.
  unfold locationTable. rewrite locationTable_fold, lookup_empty.
  now destruct (last_city _ _).
Qed.

(** X13.  fetchServerLocationData leaves the world as it is and never
    panics.  It returns the error of the fetch, or else that of the JSON
    decoding, unchanged; otherwise it returns a table that has exactly the
    codes of the records, each with the city of the last record that has
    the code. *)
Theorem fetchServerLocationData_last_record_wins (w : World) :
  (fetchServerLocationData Unmarshal w).2 = w /\
  (forall err,
     fetched w "/locations" = inr err ->
     (fetchServerLocationData Unmarshal w).1 = Ok (inr err)) /\
  (forall data err,
     fetched w "/locations" = inl data -> Unmarshal data = inr err ->
     (fetchServerLocationData Unmarshal w).1 = Ok (inr err)) /\
  (forall data locations,
     fetched w "/locations" = inl data -> Unmarshal data = inl locations ->
     exists table,
       (fetchServerLocationData Unmarshal w).1 = Ok (inl table) /\
       (forall iata, table !! iata = last_city locations iata) /\
       (forall iata,
          is_Some (table !! iata) <-> exists city, (iata, city) ∈ locations)).
Proof.
  unfold fetchServerLocationData, mbind, St_bind, get. cbn [fst snd].
  split; [|split; [|split]].
  - destruct (fetched w "/locations") as [data|err]; [|reflexivity].
    destruct (Unmarshal data); reflexivity.
  - intros err ->. reflexivity.
  - intros data err -> Herr. now rewrite Herr.
  - intros data locations -> Hok. rewrite Hok.
    exists (locationTable locations). split; [reflexivity|].
    split; [apply locationTable_lookup|].
    intros iata. rewrite locationTable_lookup. unfold last_city.
    rewrite last_is_Some. split.
    + intros Hne.
      destruct (omap _ locations) as [|city cities] eqn:E; [congruence|].
      assert (Hin : city ∈ omap (fun loc : string * string =>
                if decide (loc.1 = iata) then Some loc.2 else None) locations)
        by (rewrite E; apply list_elem_of_here).
      apply list_elem_of_omap in Hin as ([code city'] & Hin & Hloc).
      cbn [fst snd] in Hloc. destruct (decide (code = iata)) as [->|];
        [|discriminate].
      injection Hloc as ->. now exists city.
    + intros [city Hin] Hnil.
      assert (Hc : city ∈ omap (fun loc : string * string =>
                if decide (loc.1 = iata) then Some loc.2 else None) locations).
      { apply list_elem_of_omap. exists (iata, city). split; [exact Hin|].
        cbn [fst snd]. now destruct (decide (iata = iata)). }
      rewrite Hnil in Hc. now apply not_elem_of_nil in Hc.
Qed.

(** *** The whole run *)

Lemma orFail_returns {A} (m : M (A + error)) (msg : string)
    (k : A -> M (option error)) (w w' : World) (x : A) :
  m w = (Ok (inl x), w') -> orFail m msg k w = k x w'.
Proof. intros H. unfold orFail, mbind, St_bind. now rewrite H. Qed.

Lemma orFail_fails {A} (m : M (A + error)) (msg : string)
    (k : A -> M (option error)) (w w' : World) (err : error) :
  m w = (Ok (inr err), w') ->
  orFail m msg k w = (Ok (Some (msg +:+ ": " +:+ err)), w').
Proof. intros H. unfold orFail, mbind, St_bind. now rewrite H. Qed.

Lemma orFail_panics {A} (m : M (A + error)) (msg : string)
    (k : A -> M (option error)) (w w' : World) (p : panic) :
  m w = (Panic p, w') -> orFail m msg k w = (Panic p, w').
Proof. intros H. unfold orFail, mbind, St_bind. now rewrite H. Qed.

Lemma bind_returns {A B} (m : M A) (k : A -> M B) (w w' : World) (x : A) :
  m w = (Ok x, w') -> (m ≫= k) w = k x w'.
Proof. intros H. unfold mbind, St_bind. now rewrite H. Qed.

Lemma exchanges_quiet (w : World) (k : nat) (out : list output) (req : Request)
    (n : nat) :
  exchanges (after w k out) req n = exchanges (after w k []) req n.
Proof. reflexivity. Qed.

Lemma print_run (o : output) (w : World) (k : nat) (out : list output) :
  print o (after w k out) = (Ok tt, after w k (out ++ [o])).
Proof. unfold print, after. cbn. now rewrite app_assoc. Qed.

Lemma measureDownload_run (bytes iterations : Z) (w : World) (k : nat)
    (out : list output) :
  let xs := exchanges (after w k []) (downloadRequest bytes) (Z.to_nat iterations) in
  measureDownload ParseFloat bytes iterations (after w k out)
  = (Ok (inl (omap (fun x => downloadSample bytes <$> succeeded ParseFloat x) xs)),
     after w (k + Z.to_nat iterations)
       (out ++ (Printf_Error <$> omap (failed ParseFloat) xs))).
Proof.
  cbv zeta. unfold measureDownload, mbind, St_bind.
  rewrite measureDownload_loop_spec, after_after, exchanges_quiet. reflexivity.
Qed.

Lemma measureUpload_run (bytes iterations : Z) (w : World) (k : nat)
    (out : list output) :
  0 <= bytes ->
  let xs := exchanges (after w k []) (uploadRequest bytes) (Z.to_nat iterations) in
  measureUpload ParseFloat bytes iterations (after w k out)
  = (Ok (inl (omap (fun x => uploadSample bytes <$> succeeded ParseFloat x) xs)),
     after w (k + Z.to_nat iterations)
       (out ++ (Printf_Error <$> omap (failed ParseFloat) xs))).
Proof.
  intros Hb. cbv zeta. unfold measureUpload, mbind, St_bind.
  rewrite measureUpload_loop_spec by exact Hb.
  rewrite after_after, exchanges_quiet. reflexivity.
Qed.

Lemma samples_at_most {B} (f : requestTiming -> B) (w : World) (req : Request)
    (n : nat) :
  (length (omap (fun x => f <$> succeeded ParseFloat x) (exchanges w req n)) <= n)%nat.
Proof.
  pose proof (samples_and_failures ParseFloat f (exchanges w req n)) as H.
  rewrite exchanges_length in H. lia.
Qed.

Lemma printMedian_run (label : string) (test : list float) (w : World)
    (k : nat) (out : list output) :
  printMedian label test (after w k out)
  = (Ok tt,
     after w k
       (out ++ [PrintFloat label
                  match Median test with Ok m => m | Panic _ => 0%float end
                  2 "Mbps"])).
Proof.
  destruct (Median_total test) as [median Hm].
  unfold printMedian, mbind, St_bind, lift. rewrite Hm. apply print_run.
Qed.

(** The position for the 90th percentile is never negative for the sizes
    of the pools of a run. *)
Lemma position_q90 (n : nat) :
  (n <= 29)%nat ->
  0 <= Float64.to_int (Float64.of_int (Z.of_nat n) * q90)%float.
Proof.
  intros Hn.
  assert (Hall : forallb (fun n =>
            0 <=? Float64.to_int (Float64.of_int (Z.of_nat n) * q90)%float)
            (seq 0 30) = true) by (vm_compute; reflexivity).
  rewrite forallb_forall in Hall. apply Z.leb_le, Hall, in_seq. lia.
Qed.

Lemma Quartile_q90_returns (tests : list float) :
  (length tests <= 29)%nat -> exists speed, Quartile tests q90 = Ok speed.
Proof.
  intros Hn.
  unfold Quartile. destruct (len tests =? 0) eqn:E; [eauto|].
  apply Z.eqb_neq in E. pose proof (len_nonneg tests).
  rewrite len_sort_Float64s. pose proof (position_q90 (length tests) Hn) as Hpos.
  fold (len tests) in Hpos.
  destruct (index_in_range (sort_Float64s tests)
              (if Float64.to_int (Float64.of_int (len tests) * q90) >=? len tests
               then len tests - 1
               else Float64.to_int (Float64.of_int (len tests) * q90)))
    as (v & _ & Hv); [|eauto].
  rewrite len_sort_Float64s.
  destruct (_ >=? len tests) eqn:E'; [lia|].
  rewrite Z.geb_leb in E'. apply Z.leb_gt in E'. lia.
Qed.

Lemma printQuartile_run (label : string) (tests : list float) (w : World)
    (k : nat) (out : list output) :
  (length tests <= 29)%nat ->
  printQuartile label tests (after w k out)
  = (Ok tt,
     after w k
       (out ++ [PrintFloat label
                  match Quartile tests q90 with Ok v => v | Panic _ => 0%float end
                  2 "Mbps"])).
Proof.
  intros Hn. destruct (Quartile_q90_returns tests Hn) as [speed Hq].
  unfold printQuartile, mbind, St_bind, lift. rewrite Hq. apply print_run.
Qed.

Lemma measureLatency_run (w : World) :
  let xs := exchanges w (downloadRequest 1000) 20 in
  (exists x, x ∈ xs /\ is_Some (succeeded ParseFloat x)) ->
  exists min max average median jitter,
    measureLatency ParseFloat w
    = (Ok (inl [min; max; average; median; jitter]),
       after w 20 (Printf_Error <$> omap (failed ParseFloat) xs)).
Proof.
  intros xs (x & Hx & [timing Hok]).
  unfold measureLatency, mbind, St_bind, lift.
  rewrite measureLatency_loop_spec. cbn [app]. fold xs.
  destruct (omap _ xs) as [|first rest] eqn:E.
  { assert (Hin : latencyOf timing ∈ omap
        (fun x => latencyOf <$> succeeded ParseFloat x) xs).
    { apply list_elem_of_omap. exists x. split; [exact Hx|]. now rewrite Hok. }
    rewrite E in Hin. now apply not_elem_of_nil in Hin. }
  change (index (first :: rest) 0) with (@Ok float first).
  cbv beta iota zeta.
  destruct (min_max (first :: rest) first first) as [min max].
  destruct (Median_total (first :: rest)) as [median Hm]. rewrite Hm.
  now eexists _, _, _, _, _.
Qed.

Lemma fetchServerLocationData_run (w : World) :
  fetchServerLocationData Unmarshal w
  = (Ok match fetched w "/locations" with
        | inr err => inr err
        | inl data =>
            match Unmarshal data with
            | inr err => inr err
            | inl locations => inl (locationTable locations)
            end
        end, w).
Proof.
  unfold fetchServerLocationData, mbind, St_bind, get.
  destruct (fetched w "/locations") as [data|err]; [|reflexivity].
  destruct (Unmarshal data); reflexivity.
Qed.

Lemma fetchCfCdnCgiTrace_run (w : World) :
  fetchCfCdnCgiTrace w
  = (Ok match fetched w "/cdn-cgi/trace" with
        | inr err => inr err
        | inl data => inl (traceInfo data)
        end, w).
Proof.
  unfold fetchCfCdnCgiTrace, mbind, St_bind, get.
  destruct (fetched w "/cdn-cgi/trace"); reflexivity.
Qed.

Ltac run_print := erewrite bind_returns by apply print_run.

Ltac run_printMedian := erewrite bind_returns by apply printMedian_run.

Ltac run_download := erewrite orFail_returns by apply measureDownload_run.

Ltac run_upload :=
  erewrite orFail_returns by (apply measureUpload_run; lia).

Ltac bound_samples :=
  repeat match goal with
    | |- context [length (omap ?g (exchanges ?w ?req ?n))] =>
        lazymatch goal with
        | H : (length (omap g (exchanges w req n)) <= _)%nat |- _ => fail
        | _ =>
            pose proof (samples_at_most _ w req n
                        : (length (omap g (exchanges w req n)) <= n)%nat)
        end
    end.

Ltac run_printQuartile :=
  erewrite bind_returns
    by (apply printQuartile_run; rewrite !List.length_app; bound_samples; lia).

(** X14.  What a whole run comes to.  When every one of the 20 latency
    exchanges fails, speedTest panics on the empty sample list.  Otherwise
    it stops after those 20 requests with the wrapped error when the
    location table cannot be fetched or decoded, or the trace cannot be
    fetched; and when both arrive it goes through all the phases without a
    panic, returns nil, and has made exactly 77 timed requests: failed
    download or upload iterations never end a run. *)
Theorem speedTest_outcomes (w : World) :
  let xs := exchanges w (downloadRequest 1000) 20 in
  let w20 := after w 20 (Printf_Error <$> omap (failed ParseFloat) xs) in
  ((forall x, x ∈ xs -> succeeded ParseFloat x = None) ->
   speedTest ParseFloat Unmarshal w = (Panic (IndexOutOfRange 0 0), w20)) /\
  ((exists x, x ∈ xs /\ is_Some (succeeded ParseFloat x)) ->
   (forall err,
      fetched w "/locations" = inr err ->
      speedTest ParseFloat Unmarshal w
      = (Ok (Some ("failed to fetch server location data: " +:+ err)), w20)) /\
   (forall data err,
      fetched w "/locations" = inl data -> Unmarshal data = inr err ->
      speedTest ParseFloat Unmarshal w
      = (Ok (Some ("failed to fetch server location data: " +:+ err)), w20)) /\
   (forall data locations err,
      fetched w "/locations" = inl data -> Unmarshal data = inl locations ->
      fetched w "/cdn-cgi/trace" = inr err ->
      speedTest ParseFloat Unmarshal w
      = (Ok (Some ("failed to fetch CDN trace: " +:+ err)), w20)) /\
   (forall data locations trace,
      fetched w "/locations" = inl data -> Unmarshal data = inl locations ->
      fetched w "/cdn-cgi/trace" = inl trace ->
      exists out,
        speedTest ParseFloat Unmarshal w = (Ok None, after w 77 out))).
Proof.
  intros xs w20. split.
  { intros Hall. unfold speedTest.
    erewrite orFail_panics; [reflexivity|].
    unfold measureLatency, mbind, St_bind, lift.
    rewrite measureLatency_loop_spec. fold xs.
    now rewrite (no_success_no_samples ParseFloat latencyOf xs Hall). }
  intros Hsome.
  destruct (measureLatency_run w Hsome)
    as (min & max & average & median & jitter & Hlat).
  fold xs in Hlat. fold w20 in Hlat.
  unfold speedTest. rewrite (orFail_returns _ _ _ _ _ _ Hlat).
  split; [|split; [|split]].
  - intros err Hloc. erewrite orFail_fails; [reflexivity|].
    rewrite fetchServerLocationData_run. unfold w20. cbn [fetched after].
    now rewrite Hloc.
  - intros data err Hloc Hun. erewrite orFail_fails; [reflexivity|].
    rewrite fetchServerLocationData_run. unfold w20. cbn [fetched after].
    now rewrite Hloc, Hun.
  - intros data locations err Hloc Hun Htrace.
    erewrite orFail_returns;
      [|rewrite fetchServerLocationData_run; unfold w20; cbn [fetched after];
        rewrite Hloc, Hun; reflexivity].
    erewrite orFail_fails; [reflexivity|].
    rewrite fetchCfCdnCgiTrace_run. unfold w20. cbn [fetched after].
    now rewrite Htrace.
  - intros data locations trace Hloc Hun Htrace.
    erewrite orFail_returns;
      [|rewrite fetchServerLocationData_run; unfold w20; cbn [fetched after];
        rewrite Hloc, Hun; reflexivity].
    erewrite orFail_returns;
      [|rewrite fetchCfCdnCgiTrace_run; unfold w20; cbn [fetched after];
        rewrite Htrace; reflexivity].
    cbv zeta. unfold w20. eexists.
    run_print. run_print.
    erewrite bind_returns by reflexivity. run_print.
    erewrite bind_returns by reflexivity. run_print.
    run_download. run_printMedian.
    run_download. run_printMedian.
    run_download. run_printMedian.
    run_download. run_printMedian.
    run_download. run_printMedian.
    run_printQuartile.
    run_upload. run_upload. run_upload.
    run_printQuartile.
    reflexivity.
Qed.

End MoreProperties.

(** ** What the statistics allocate *)

Lemma write_dom (s : Mem.slice) (vs : list float) (h : Mem.store) :
  dom (Mem.write s vs h) = dom h.
Proof.
  unfold Mem.write. destruct (h !! Mem.Data s) as [arr|] eqn:E; [|reflexivity].
  rewrite dom_insert_L. apply elem_of_dom_2 in E.
  now apply subseteq_union_1_L, singleton_subseteq_l.
Qed.

Lemma sorted_copy_dom (values : Mem.slice) (h : Mem.store) :
  dom (Mem.sorted_copy values h).2 = {[fresh (dom h)]} ∪ dom h.
Proof.
  unfold Mem.sorted_copy, mbind, St_bind, Mem.make, Mem.copy, Mem.Float64s,
    mret, St_ret.
  cbn [fst snd]. now rewrite !write_dom, dom_insert_L.
Qed.

(** X18.  On an empty slice Median and Quartile return 0 and leave the
    store exactly as it is: nothing is allocated.  On any other slice each
    allocates one array, at an address that was free, and nothing else. *)
Theorem statistics_allocate_one_array (values : Mem.slice) (q : float)
    (h : Mem.store) :
  (Mem.Len values = 0%nat ->
   Mem.Median values h = (Ok 0%float, h) /\
   Mem.Quartile values q h = (Ok 0%float, h)) /\
  (Mem.Len values <> 0%nat ->
   h !! fresh (dom h) = None /\
   dom (Mem.Median values h).2 = {[fresh (dom h)]} ∪ dom h /\
   dom (Mem.Quartile values q h).2 = {[fresh (dom h)]} ∪ dom h).
Proof.
  split; intros Hlen.
  - unfold Mem.Median, Mem.Quartile. rewrite Hlen. split; reflexivity.
  - split; [apply fresh_unallocated|].
    rewrite Median_begins, Quartile_begins.
    replace (Z.of_nat (Mem.Len values) =? 0) with false
      by (symmetry; apply Z.eqb_neq; lia).
    pose proof (sorted_copy_dom values h) as Hdom.
    unfold mbind, St_bind, Mem.at_index, mret, St_ret.
    destruct (Mem.sorted_copy values h) as [[sorted|p] h']; cbn [snd] in Hdom.
    + cbv beta iota zeta. split; [|exact Hdom]. run_tail; exact Hdom.
    + split; exact Hdom.
Qed.

(** ** The console of the single-file program *)

Section ConsoleProperties.

Variables bold blue magenta yellow green : list string -> string.
Variable Sprintf_2f : float -> string.

Lemma repeat_space_S (n : nat) :
  strings.repeat_string " " (S n) = String " " (strings.repeat_string " " n).
Proof. reflexivity. Qed.

Lemma repeat_space_length (n : nat) :
  String.length (strings.repeat_string " " n) = n.
Proof.
  induction n as [|n IH]; [reflexivity|].
  rewrite repeat_space_S. cbn [String.length]. now rewrite IH.
Qed.

Lemma repeat_space_count (n : nat) :
  strings.Count (strings.repeat_string " " n) " " = n.
Proof.
  induction n as [|n IH]; [reflexivity|].
  rewrite repeat_space_S. cbn [strings.Count].
  destruct (decide _) as [_|Hne]; [now rewrite IH|now destruct Hne].
Qed.

(** The padding of a label to [width]: never a negative count. *)
Lemma padding_spaces (width : Z) (text : string) :
  0 <= width ->
  let padding := width - Z.of_nat (String.length text) in
  exists spaces,
    strings.Repeat " " (if padding <? 0 then 0 else padding) = Ok spaces /\
    strings.Count spaces " " = String.length spaces /\
    (String.length spaces + String.length text
     = Nat.max (Z.to_nat width) (String.length text))%nat.
Proof.
  intros Hw padding. unfold strings.Repeat.
  set (count := if padding <? 0 then 0 else padding).
  assert (Hcount : 0 <= count /\
            (Z.to_nat count + String.length text
             = Nat.max (Z.to_nat width) (String.length text))%nat).
  { unfold count, padding. destruct (_ <? 0) eqn:E.
    - apply Z.ltb_lt in E. lia.
    - apply Z.ltb_ge in E. lia. }
  destruct Hcount as [Hpos Hlen].
  replace (count <? 0) with false by (symmetry; apply Z.ltb_ge; lia).
  eexists. split; [reflexivity|].
  rewrite repeat_space_length, repeat_space_count. split; [reflexivity|exact Hlen].
Qed.

(** X15.  logInfo and logSpeedTestResult never panic, although
    [strings.Repeat] panics on a negative count: the padding is held at
    zero.  Each prints one line, whose first operand is spaces only and
    fills the label up to 15 bytes, or the size up to 9, and is empty for a
    longer one; the speed shown is the median of the samples. *)
Theorem padded_labels_never_panic (text data size : string) (test : list float)
    (out : list string) :
  (exists spaces,
     logInfo bold blue text data out
     = (Ok tt, out ++ [bold [spaces; text +:+ ":"; blue [data]]]) /\
     strings.Count spaces " " = String.length spaces /\
     (String.length spaces + String.length text
      = Nat.max 15 (String.length text))%nat) /\
  (exists spaces speed,
     Median test = Ok speed /\
     logSpeedTestResult bold yellow Sprintf_2f size test out
     = (Ok tt,
        out ++ [bold [spaces; size; "speed:";
                      yellow [Sprintf_2f speed +:+ " Mbps"]]]) /\
     strings.Count spaces " " = String.length spaces /\
     (String.length spaces + String.length size
      = Nat.max 9 (String.length size))%nat).
Proof.
  split.
  - destruct (padding_spaces 15 text ltac:(lia)) as (spaces & Hr & Hc & Hl).
    exists spaces. split; [|split; assumption].
    unfold logInfo, mbind, St_bind, lift. cbv zeta in Hr |- *. now rewrite Hr.
  - destruct (padding_spaces 9 size ltac:(lia)) as (spaces & Hr & Hc & Hl).
    destruct (Median_total test) as [speed Hm].
    exists spaces, speed. split; [exact Hm|]. split; [|split; assumption].
    unfold logSpeedTestResult, mbind, St_bind, lift. cbv zeta in Hr |- *.
    now rewrite Hm, Hr.
Qed.

(** X16.  logLatency reads the fourth and the fifth number of what it is
    given.  With five numbers or more it prints the latency line and the
    jitter line; with four it prints the latency line and then panics on
    index 4; with fewer it panics on index 3 and prints nothing. *)
Theorem logLatency_needs_five_numbers (data : list float) (out : list string) :
  (5 <= len data ->
   exists latency jitter,
     data !! 3%nat = Some latency /\ data !! 4%nat = Some jitter /\
     logLatency bold magenta Sprintf_2f data out
     = (Ok tt,
        out ++ [bold ["         Latency:"; magenta [Sprintf_2f latency +:+ " ms"]];
                bold ["          Jitter:"; magenta [Sprintf_2f jitter +:+ " ms"]]])) /\
  (len data = 4 ->
   exists latency,
     data !! 3%nat = Some latency /\
     logLatency bold magenta Sprintf_2f data out
     = (Panic (IndexOutOfRange 4 4),
        out ++ [bold ["         Latency:"; magenta [Sprintf_2f latency +:+ " ms"]]])) /\
  (len data <= 3 ->
   logLatency bold magenta Sprintf_2f data out
   = (Panic (IndexOutOfRange 3 (len data)), out)).
Proof.
  unfold logLatency, mbind, St_bind, lift, Println.
  split; [|split]; intros Hn.
  - destruct (index_in_range data 3) as (latency & H3 & Hi3); [lia|].
    destruct (index_in_range data 4) as (jitter & H4 & Hi4); [lia|].
    exists latency, jitter. split; [exact H3|]. split; [exact H4|].
    rewrite Hi3, Hi4, <- app_assoc. reflexivity.
  - destruct (index_in_range data 3) as (latency & H3 & Hi3); [lia|].
    exists latency. split; [exact H3|].
    rewrite Hi3, (index_out_of_range data 4) by lia. now rewrite Hn.
  - now rewrite (index_out_of_range data 3) by lia.
Qed.

(** X17.  For a pool of at most 29 samples, which is the most a run can
    gather, logDownloadSpeed and logUploadSpeed print one line and do not
    panic, and the speed shown is what Quartile returns at 0.9. *)
Theorem speed_lines_never_panic (tests : list float) (out : list string) :
  (length tests <= 29)%nat ->
  exists speed,
    Quartile tests q90 = Ok speed /\
    logDownloadSpeed bold green Sprintf_2f tests out
    = (Ok tt, out ++ [bold ["  Download speed:"; green [Sprintf_2f speed +:+ " Mbps"]]]) /\
    logUploadSpeed bold green Sprintf_2f tests out
    = (Ok tt, out ++ [bold ["    Upload speed:"; green [Sprintf_2f speed +:+ " Mbps"]]]).
Proof.
  intros Hn. destruct (Quartile_q90_returns tests Hn) as [speed Hq].
  exists speed. split; [exact Hq|].
  unfold logDownloadSpeed, logUploadSpeed, mbind, St_bind, lift.
  now rewrite Hq.
Qed.

End ConsoleProperties.

(** ** The further theorems at concrete inputs *)

Lemma measureLatency_returns_five_witness :
  exists r, (measureLatency atof second_fails).1 = Ok (inl r).
Proof.
  destruct (measureLatency_returns_five atof second_fails 7.5%float)
    as (median & _ & Hrun).
  - vm_compute. reflexivity.
  - rewrite Hrun. eexists. reflexivity.
Defined.

Lemma phase_requests_once_per_iteration_witness :
  served (measureUpload atof 5 3 unreachable).2 = 3%nat.
Proof.
  apply (proj1 (proj2 (phase_requests_once_per_iteration atof 5 3 unreachable))).
  lia.
Defined.

Lemma phase_without_iterations_witness :
  measureUpload atof (-1) 0 unreachable = (Ok (inl []), unreachable).
Proof. apply (phase_without_iterations atof (-1) 0 unreachable). lia. Defined.

Lemma measureUpload_negative_size_panics_witness :
  measureUpload atof (-1) 10 unreachable
  = (Panic NegativeRepeatCount, unreachable).
Proof.
  apply (measureUpload_negative_size_panics atof (-1) 10 unreachable); lia.
Defined.

Lemma upload_body_has_requested_size_witness :
  exists req,
    upload atof 3 unreachable
    = (Ok (received atof (network unreachable (served unreachable) req)),
       after unreachable 1 []) /\
    Z.of_nat (String.length (Body req)) = 3 /\ ContentLength req = Some 3.
Proof.
  destruct (proj1 (upload_body_has_requested_size atof 3 unreachable ltac:(lia)))
    as (req & Hrun & _ & _ & Hlen & _ & Hheader).
  exists req. split; [exact Hrun|]. split; [exact Hlen|exact Hheader].
Defined.

Lemma request_plays_one_exchange_witness :
  (request atof "GET" "speed.cloudflare.com" "/__down?bytes=1000" ""
     unreachable).1
  = Ok (inr "dial tcp: connection refused").
Proof.
  apply (proj1 (proj2 (request_plays_one_exchange atof "GET"
                         "speed.cloudflare.com" "/__down?bytes=1000" ""
                         unreachable))).
  right. left. reflexivity.
Defined.

Lemma Server_Timing_second_field_only_witness :
  exists timing,
    (request atof "POST" "speed.cloudflare.com" "/__up" "0"
       (scripted (fun _ => Response 30000000 "dur=5;desc;dur=7"))).1
    = Ok (inl timing) /\
    serverTiming timing = 0%float.
Proof.
  apply (Server_Timing_second_field_only atof "POST" "speed.cloudflare.com"
           "/__up" "0" (scripted (fun _ => Response 30000000 "dur=5;desc;dur=7"))
           30000000 "dur=5;desc;dur=7" "dur=5" "desc" ["dur=7"]);
    reflexivity.
Defined.

Lemma traceInfo_keys_and_values_clean_witness :
  strings.Count "colo" "=" = 0%nat /\ strings.Count "SJC" "=" = 0%nat /\
  strings.Count "colo" "010" = 0%nat /\ strings.Count "SJC" "010" = 0%nat.
Proof.
  apply (traceInfo_keys_and_values_clean trace_payload "colo" "SJC").
  vm_compute. reflexivity.
Defined.

Lemma traceLine_takes_one_equals_sign_witness :
  traceLine ∅ "url=/search?q=1" = ∅.
Proof.
  apply (proj2 (traceLine_takes_one_equals_sign ∅ "url=/search?q=1")).
  vm_compute. discriminate.
Defined.

Lemma fetchServerLocationData_last_record_wins_witness :
  exists table,
    (fetchServerLocationData two_airports unreachable).1 = Ok (inl table) /\
    table !! "SJC" = Some "Mineta".
Proof.
  destruct (proj2 (proj2 (proj2
              (fetchServerLocationData_last_record_wins two_airports unreachable)))
              trace_payload
              [("SJC", "San Jose"); ("ORD", "Chicago"); ("SJC", "Mineta")]
              eq_refl eq_refl)
    as (table & Hrun & Hlookup & _).
  exists table. split; [exact Hrun|]. rewrite Hlookup. reflexivity.
Defined.

Lemma speedTest_outcomes_witness :
  exists out,
    speedTest atof two_airports second_fails
    = (Ok None, after second_fails 77 out).
Proof.
  refine (proj2 (proj2 (proj2 (proj2 (speedTest_outcomes atof two_airports
            second_fails) _)))
            trace_payload
            [("SJC", "San Jose"); ("ORD", "Chicago"); ("SJC", "Mineta")]
            trace_payload eq_refl eq_refl eq_refl).
  exists (quiet_exchange (Response 30000000 "cf-edge; dur=12.5")). split.
  - apply (list_elem_of_lookup_2 _ 0%nat). reflexivity.
  - eexists. vm_compute. reflexivity.
Defined.

Lemma logLatency_needs_five_numbers_witness :
  exists latency,
    [1; 2; 3; 4]%float !! 3%nat = Some latency /\
    logLatency plain plain no_digits [1; 2; 3; 4]%float []
    = (Panic (IndexOutOfRange 4 4),
       [] ++ [plain ["         Latency:"; plain [no_digits latency +:+ " ms"]]]).
Proof.
  apply (proj1 (proj2 (logLatency_needs_five_numbers plain plain no_digits
                         [1; 2; 3; 4]%float []))).
  reflexivity.
Defined.

Lemma speed_lines_never_panic_witness :
  exists speed,
    Quartile [30; 10; 50; 20; 40]%float q90 = Ok speed /\
    logDownloadSpeed plain plain no_digits [30; 10; 50; 20; 40]%float ["Latency"]
    = (Ok tt,
       ["Latency"]
       ++ [plain ["  Download speed:"; plain [no_digits speed +:+ " Mbps"]]]) /\
    logUploadSpeed plain plain no_digits [30; 10; 50; 20; 40]%float ["Latency"]
    = (Ok tt,
       ["Latency"]
       ++ [plain ["    Upload speed:"; plain [no_digits speed +:+ " Mbps"]]]).
Proof.
  apply (speed_lines_never_panic plain plain no_digits
           [30; 10; 50; 20; 40]%float ["Latency"]).
  cbn. lia.
Defined.

Lemma statistics_allocate_one_array_witness :
  dom (Mem.Median {| Mem.Data := 0; Mem.Off := 1; Mem.Len := 3 |}
         {[ 0%nat := [9; 3; 1; 2; 7]%float ]}).2
  = {[fresh (dom ({[ 0%nat := [9; 3; 1; 2; 7]%float ]} : Mem.store))]}
    ∪ dom ({[ 0%nat := [9; 3; 1; 2; 7]%float ]} : Mem.store).
Proof.
  apply (proj2 (statistics_allocate_one_array
                  {| Mem.Data := 0; Mem.Off := 1; Mem.Len := 3 |} 0.5%float
                  {[ 0%nat := [9; 3; 1; 2; 7]%float ]})).
  discriminate.
Defined.
